(** * Shopping Behavior Analyzer: the filter-and-aggregate pipeline of pro_8.py

    A shallow embedding of the data pipeline of [pro_8.py] (the load-time age
    bucketing, [apply_age_filter], [analyze_data], [update_details_display] and
    [show_details_popup]) together with the properties its specification
    states about it.

    Modelling conventions.
    - A pandas DataFrame is a list of column names together with a list of
      typed rows; reading a column that is not in the column list raises
      [KeyError], as [df[c]] does.
    - Python exceptions are values of an error monad ([result]).
    - The module-level globals [last_filtered_df], [current_detail_option] and
      [details_popup] form the [Session] record, threaded explicitly.
    - The values of the two decimal columns (purchase amount, review
      rating) are rational numbers, as every finite float64 is (the load
      drops the rows with a missing value, line 20); comparing them is
      exact.
    - What pandas, numpy and Python compute from them is not in the source:
      the float64 sums and means, [round], and the order in which
      [sort_values] leaves equal values.  These operations are parameters of
      the model ([Library]); the properties hold for every choice of them
      that sorts ([lawful]).
    - Widgets are not modelled: a function returns what it displays. *)

From Stdlib Require Import String List ZArith QArith Bool Arith Lia.
From Stdlib Require Import Permutation Sorted OrdersEx.
Import ListNotations.

Local Open Scope string_scope.
Local Open Scope Z_scope.

(** ** Exceptions *)

Inductive exn : Type :=
| KeyError (key : string)
| IndexError
| ValueError.

Inductive result (A : Type) : Type :=
| Ok (a : A)
| Raise (e : exn).

Arguments Ok {A} a.
Arguments Raise {A} e.

Definition bind {A B : Type} (c : result A) (k : A -> result B) : result B :=
  match c with
  | Ok a => k a
  | Raise e => Raise e
  end.

Notation "x <- c ;; k" := (bind c (fun x => k))
  (at level 61, c at next level, right associativity).

Definition raises {A : Type} (c : result A) : bool :=
  match c with
  | Ok _ => false
  | Raise _ => true
  end.

(** ** Data model *)

(** One row of the data set.  [age_group] is the derived ['Age Group']
    categorical column; [None] is pandas' NaN (no category). *)
Record Row : Type := mkRow {
  customer_id : Z;
  age : Z;
  gender : string;
  item_purchased : string;
  category : string;
  purchase_amount : Q;
  location : string;
  color : string;
  season : string;
  review_rating : Q;
  previous_purchases : Z;
  age_group : option string
}.

Record DataFrame : Type := mkDF {
  columns : list string;
  rows : list Row
}.

(** [pd.DataFrame()] *)
Definition pd_DataFrame : DataFrame := mkDF [] [].

(** [c in df.columns] *)
Definition has_column (df : DataFrame) (c : string) : bool :=
  existsb (String.eqb c) (columns df).

(** [df.empty]: some axis has length 0. *)
Definition empty (df : DataFrame) : bool :=
  match columns df, rows df with
  | _ :: _, _ :: _ => false
  | _, _ => true
  end.

(** [df[c]], read through the field [f] that holds column [c]. *)
Definition column {A : Type} (df : DataFrame) (c : string) (f : Row -> A)
  : result (list A) :=
  if has_column df c then Ok (map f (rows df)) else Raise (KeyError c).

(** [df[mask]] where [mask] is a boolean Series built from column [c]. *)
Definition select (df : DataFrame) (c : string) (mask : Row -> bool)
  : result DataFrame :=
  if has_column df c
  then Ok (mkDF (columns df) (filter mask (rows df)))
  else Raise (KeyError c).

(** ** Load-time age bucketing (lines 26-29) *)

Definition age_bins : list Z := [0; 25; 35; 45; 55; 65; 100].
Definition age_labels : list string :=
  ["<25"; "25–35"; "35–45"; "45–55"; "55–65"; "65+"].

(** The intervals [(lo, hi]] after the first one. *)
Fixpoint cut_from (lo : Z) (his : list Z) (labels : list string) (x : Z)
  : option string :=
  match his, labels with
  | hi :: his', lab :: labels' =>
      if (lo <? x) && (x <=? hi) then Some lab else cut_from hi his' labels' x
  | _, _ => None
  end.

(** [pd.cut(x, bins, labels, right=True, include_lowest=True)] on one value:
    right-closed intervals, the first one closed on the left as well; a value
    in no interval is NaN. *)
Definition cut (x : Z) (bins : list Z) (labels : list string) : option string :=
  match bins, labels with
  | lo :: hi :: his, lab :: labels' =>
      if (lo <=? x) && (x <=? hi) then Some lab else cut_from hi his labels' x
  | _, _ => None
  end.

Definition set_age_group (r : Row) (g : option string) : Row :=
  mkRow (customer_id r) (age r) (gender r) (item_purchased r) (category r)
        (purchase_amount r) (location r) (color r) (season r)
        (review_rating r) (previous_purchases r) g.

(** [df['Age Group'] = pd.cut(df['Age'], ...)] on the cleaned rows of the CSV
    file ([csv_columns] are the file's header). *)
Definition load (csv_columns : list string) (csv_rows : list Row)
  : result DataFrame :=
  let df := mkDF csv_columns csv_rows in
  ages <- column df "Age" age ;;
  Ok (mkDF (if has_column df "Age Group" then csv_columns
            else (csv_columns ++ ["Age Group"])%list)
           (map (fun r => set_age_group r (cut (age r) age_bins age_labels))
                csv_rows)).

(** ** The filters (lines 186-213) *)

Definition apply_age_filter (df : DataFrame) (age_range : string)
  : result DataFrame :=
  if String.eqb age_range "18-25" then
    select df "Age" (fun r => (18 <=? age r) && (age r <=? 25))
  else if String.eqb age_range "26-35" then
    select df "Age" (fun r => (26 <=? age r) && (age r <=? 35))
  else if String.eqb age_range "36-45" then
    select df "Age" (fun r => (36 <=? age r) && (age r <=? 45))
  else if String.eqb age_range "46-60" then
    select df "Age" (fun r => (46 <=? age r) && (age r <=? 60))
  else if String.eqb age_range "60+" then
    select df "Age" (fun r => 60 <? age r)
  else Ok df.

(** The four filter controls ([gender_var], [age_var], [category_var],
    [season_var]); ["All"] is the no-constraint value. *)
Record FilterSpec : Type := mkSpec {
  gender_var : string;
  age_var : string;
  category_var : string;
  season_var : string
}.

(** Lines 203-213 of [analyze_data]. *)
Definition apply_filters (df : DataFrame) (spec : FilterSpec)
  : result DataFrame :=
  let filtered_df := df in
  filtered_df <-
    (if negb (String.eqb (gender_var spec) "All")
     then select filtered_df "Gender" (fun r => String.eqb (gender r) (gender_var spec))
     else Ok filtered_df) ;;
  filtered_df <-
    (if negb (String.eqb (age_var spec) "All")
     then apply_age_filter filtered_df (age_var spec)
     else Ok filtered_df) ;;
  filtered_df <-
    (if negb (String.eqb (category_var spec) "All")
     then select filtered_df "Category" (fun r => String.eqb (category r) (category_var spec))
     else Ok filtered_df) ;;
  filtered_df <-
    (if negb (String.eqb (season_var spec) "All")
     then select filtered_df "Season" (fun r => String.eqb (season r) (season_var spec))
     else Ok filtered_df) ;;
  Ok filtered_df.

(** ** pandas primitives used by the aggregations *)

(** A Series indexed by strings, in index order. *)
Definition Series (V : Type) : Type := list (string * V).

Section StableSort.
Context {A : Type}.
(** [before y x]: [y] has to come strictly before [x]. *)
Variable before : A -> A -> bool.

(** [x] precedes every element of [l] in the original order: it stays in
    front of every element it is tied with. *)
Fixpoint stable_insert (x : A) (l : list A) : list A :=
  match l with
  | [] => [x]
  | y :: l' => if before y x then y :: stable_insert x l' else x :: l
  end.

Definition stable_sort (l : list A) : list A :=
  fold_right stable_insert [] l.
End StableSort.

(** The operations of pandas, numpy and Python whose result the source does
    not determine.
    - [series_sum], [series_mean]: [s.sum()] and [s.mean()] of a float64
      column (lines 225, 226);
    - [grouped_sum], [grouped_mean]: [grouped[c].sum()] and
      [grouped[c].mean()] on the values of one group, in row order (lines
      133, 239, 255);
    - [round2]: [round(x, 2)] (lines 226, 242);
    - [sort_counts]: [s.sort_values(ascending=False)] on a Series of counts
      (line 238, and inside [value_counts], line 142);
    - [sort_totals]: the same on a Series of totals (lines 133, 255). *)
Record Library : Type := mkLibrary {
  series_sum : list Q -> Q;
  series_mean : list Q -> Q;
  grouped_sum : list Q -> Q;
  grouped_mean : list Q -> Q;
  round2 : Q -> Q;
  sort_counts : Series nat -> Series nat;
  sort_totals : Series Q -> Series Q
}.

(** What every sort guarantees: the entries are rearranged, and no entry is
    followed by a larger one.  Nothing is said of equal values. *)
Definition lawful (lib : Library) : Prop :=
  (forall s, Permutation (sort_counts lib s) s) /\
  (forall s, StronglySorted (fun a b => (snd b <= snd a)%nat) (sort_counts lib s)) /\
  (forall s, Permutation (sort_totals lib s) s) /\
  (forall s, StronglySorted (fun a b => (snd b <= snd a)%Q) (sort_totals lib s)).

(** [df.groupby(key)]: the groups in ascending key order ([sort=True]), the
    rows of a group in their original order. *)
Fixpoint group_insert (k : string) (r : Row) (gs : list (string * list Row))
  : list (string * list Row) :=
  match gs with
  | [] => [(k, [r])]
  | (k', g) :: gs' =>
      match String_as_OT.compare k k' with
      | Eq => (k', r :: g) :: gs'
      | Lt => (k, [r]) :: gs
      | Gt => (k', g) :: group_insert k r gs'
      end
  end.

Definition groupby (key : Row -> string) (l : list Row)
  : list (string * list Row) :=
  fold_right (fun r gs => group_insert (key r) r gs) [] l.

(** [grouped.size()], [grouped[c].sum()], [grouped[c].mean()] *)
Definition group_size (grouped : list (string * list Row)) : Series nat :=
  map (fun kg => (fst kg, length (snd kg))) grouped.
Definition group_sum (lib : Library) (f : Row -> Q)
  (grouped : list (string * list Row)) : Series Q :=
  map (fun kg => (fst kg, grouped_sum lib (map f (snd kg)))) grouped.
Definition group_mean (lib : Library) (f : Row -> Q)
  (grouped : list (string * list Row)) : Series Q :=
  map (fun kg => (fst kg, grouped_mean lib (map f (snd kg)))) grouped.

(** [s.get(key, default)] *)
Fixpoint series_get {V : Type} (s : Series V) (key : string) (default : V) : V :=
  match s with
  | [] => default
  | (k, v) :: s' => if String.eqb k key then v else series_get s' key default
  end.

(** [s.nunique()] of a categorical column: NaN is not counted. *)
Fixpoint dropna {A : Type} (xs : list (option A)) : list A :=
  match xs with
  | [] => []
  | Some x :: xs' => x :: dropna xs'
  | None :: xs' => dropna xs'
  end.

Definition nunique (xs : list (option string)) : nat :=
  length (nodup string_dec (dropna xs)).

(** [s.mode()] of a categorical column: the categories of maximal count among
    the values that are not NaN, in category order; empty when every value is
    NaN. *)
Definition count_label (lab : string) (xs : list (option string)) : nat :=
  length (filter (String.eqb lab) (dropna xs)).

Definition mode (categories : list string) (xs : list (option string))
  : list string :=
  let m := fold_right Nat.max 0%nat (map (fun c => count_label c xs) categories) in
  if (m =? 0)%nat then []
  else filter (fun c => (count_label c xs =? m)%nat) categories.

(** [s[0]] on a Series with the default index. *)
Definition item0 {A : Type} (s : list A) : result A :=
  match s with
  | x :: _ => Ok x
  | [] => Raise (KeyError "0")
  end.

(** [s.index[0]] *)
Definition index0 {V : Type} (s : Series V) : result string :=
  match s with
  | (k, _) :: _ => Ok k
  | [] => Raise IndexError
  end.

(** [s.value_counts()]: the counts, taken in order of first occurrence, then
    sorted by descending count. *)
Fixpoint count_insert (k : string) (cs : Series nat) : Series nat :=
  match cs with
  | [] => [(k, 1%nat)]
  | (k', n) :: cs' =>
      if String.eqb k k' then (k', S n) :: cs' else (k', n) :: count_insert k cs'
  end.

Definition first_seen_counts (xs : list string) : Series nat :=
  fold_left (fun cs k => count_insert k cs) xs [].

Definition value_counts (lib : Library) (xs : list string) : Series nat :=
  sort_counts lib (first_seen_counts xs).

(** [s.idxmax()]: the index of the first maximum. *)
Fixpoint idxmax_from (best : string * nat) (s : Series nat) : string :=
  match s with
  | [] => fst best
  | y :: s' => if (snd best <? snd y)%nat then idxmax_from y s' else idxmax_from best s'
  end.

Definition idxmax (s : Series nat) : result string :=
  match s with
  | [] => Raise ValueError
  | x :: s' => Ok (idxmax_from x s')
  end.

(** [df.nsmallest(n, c)] with the default [keep='first']: the first [n] rows
    in ascending order of the column, equal values in their original order. *)
Definition nsmallest (n : nat) (f : Row -> Z) (l : list Row) : list Row :=
  firstn n (stable_sort (fun y x => f y <? f x) l).

(** The message of the [KeyError] that [df[[c1, ..., cn]]] raises when some,
    but not all, of the listed columns are missing: the missing ones, as
    Python prints a list of strings. *)
Definition not_in_index (missing : list string) : string :=
  "[" ++ String.concat ", " (map (fun c => "'" ++ c ++ "'") missing)
  ++ "] not in index".

(** [df[[c1, ..., cn]]] for a list that holds at least one column of [df]
    (where it is used, line 150, ['Previous Purchases'] has just been read). *)
Definition getitem_columns (df : DataFrame) (cols : list string)
  : result DataFrame :=
  match filter (fun c => negb (has_column df c)) cols with
  | [] => Ok (mkDF cols (rows df))
  | missing => Raise (KeyError (not_in_index missing))
  end.

(** ** Session state and what the functions display *)

(** The globals of lines 43-45.  [details_popup] is [None] until the popup is
    created; the boolean says whether the window is mapped. *)
Record Session : Type := mkSession {
  last_filtered_df : DataFrame;
  current_detail_option : string;
  details_popup : option bool
}.

Definition initial_session : Session :=
  mkSession pd_DataFrame "Location" None.

(** What [update_details_display] writes into the text box; the layout of the
    lines is left out, their content is kept. *)
Inductive Report : Type :=
| Message (text : string)
| LocationSales (loc_sales : Series Q) (top_location : string)
| ColorPopularity (color_counts : Series nat) (most_popular : string)
| LoyaltyLaggards (least_customers : list (Z * string * Z)).

Definition no_data_text : string :=
  "No data available to display details. Please run analysis first.".

(** The data-processing part of [update_details_display] (lines 124-156). *)
Definition detail_report (lib : Library) (filtered_df : DataFrame)
  (option_ : string) : result Report :=
  if empty filtered_df then
    Ok (Message no_data_text)
  else if String.eqb option_ "Location" then
    if has_column filtered_df "Purchase Amount (USD)"
       && has_column filtered_df "Location"
    then
      let loc_sales :=
        sort_totals lib
          (group_sum lib purchase_amount (groupby location (rows filtered_df))) in
      top <- index0 loc_sales ;;
      Ok (LocationSales loc_sales top)
    else Ok (Message "Required columns (Purchase Amount or Location) are missing.")
  else if String.eqb option_ "Color" && has_column filtered_df "Color" then
    colors <- column filtered_df "Color" color ;;
    let color_counts := value_counts lib colors in
    top <- idxmax color_counts ;;
    Ok (ColorPopularity color_counts top)
  else if String.eqb option_ "Least Purchases" then
    _ <- column filtered_df "Previous Purchases" previous_purchases ;;
    let smallest :=
      mkDF (columns filtered_df)
           (nsmallest 15 previous_purchases (rows filtered_df)) in
    least_customers <-
      getitem_columns smallest ["Customer ID"; "Location"; "Previous Purchases"] ;;
    Ok (LoyaltyLaggards
          (map (fun row => (customer_id row, location row, previous_purchases row))
               (rows least_customers)))
  else Ok (Message "No data available for this report.").

(** [update_details_display(option)]: [None] when there is no popup to write
    to (lines 98-99). *)
Definition update_details_display (lib : Library) (option_ : string)
  (st : Session) : result (Session * option Report) :=
  let st := mkSession (last_filtered_df st) option_ (details_popup st) in
  match details_popup st with
  | None => Ok (st, None)
  | Some _ =>
      report <- detail_report lib (last_filtered_df st) option_ ;;
      Ok (st, Some report)
  end.

(** What a user action shows: a [showwarning] box, the detailed report, or the
    dashboard (summary, chart series, and the refreshed report if the popup is
    mapped). *)
Record Summary : Type := mkSummary {
  total_sales : Q;
  avg_rating : option Q;
  top_age_group : string;
  total_records : nat;
  rec_items : option (list (string * nat * option Q))
}.

Inductive Display : Type :=
| Warning (title message : string)
| Details (report : option Report)
| Dashboard (summary : Summary) (chart : option (Series Q))
            (details : option Report).

(** [show_details_popup()] (lines 161-180). *)
Definition show_details_popup (lib : Library) (st : Session)
  : result (Session * Display) :=
  if empty (last_filtered_df st) then
    Ok (st, Warning "No Data"
      "Please apply filters and run the analysis before viewing detailed reports.")
  else
    let st := mkSession (last_filtered_df st) (current_detail_option st) (Some true) in
    sr <- update_details_display lib (current_detail_option st) st ;;
    Ok (fst sr, Details (snd sr)).

(** ** The summary calculations (lines 224-245) *)

(** Lines 228-232. *)
Definition most_active_age_group (filtered_df : DataFrame) : result string :=
  groups <- column filtered_df "Age Group" age_group ;;
  if negb (length groups =? 0)%nat && (0 <? nunique groups)%nat then
    ages <- column filtered_df "Age" age ;;
    let current := map (fun a => cut a age_bins age_labels) ages in
    item0 (mode age_labels current)
  else Ok "N/A".

(** Lines 234-245: [None] stands for the "No 'Item Purchased' column found."
    text, an inner [None] for the "N/A" rating. *)
Definition recommended_items (lib : Library) (filtered_df : DataFrame)
  : result (option (list (string * nat * option Q))) :=
  if has_column filtered_df "Item Purchased" then
    let grouped := groupby item_purchased (rows filtered_df) in
    let top_items := firstn 3 (sort_counts lib (group_size grouped)) in
    let avg_ratings_items :=
      if has_column filtered_df "Review Rating"
      then Some (group_mean lib review_rating grouped) else None in
    Ok (Some (map (fun ic =>
                     (fst ic, snd ic,
                      match avg_ratings_items with
                      | Some s => Some (round2 lib (series_get s (fst ic) 0%Q))
                      | None => None
                      end))
                  top_items))
  else Ok None.

Definition summarize (lib : Library) (filtered_df : DataFrame)
  : result Summary :=
  amounts <- column filtered_df "Purchase Amount (USD)" purchase_amount ;;
  let total_sales := series_sum lib amounts in
  let avg_rating :=
    if has_column filtered_df "Review Rating"
    then Some (round2 lib (series_mean lib (map review_rating (rows filtered_df))))
    else None in
  top_age_group <- most_active_age_group filtered_df ;;
  rec_text <- recommended_items lib filtered_df ;;
  Ok (mkSummary total_sales avg_rating top_age_group
                (length (rows filtered_df)) rec_text).

(** The series of the bar chart (lines 253-266). *)
Definition category_chart (lib : Library) (filtered_df : DataFrame)
  : result (option (Series Q)) :=
  if has_column filtered_df "Category" then
    _ <- column filtered_df "Purchase Amount (USD)" purchase_amount ;;
    Ok (Some (sort_totals lib
                (group_sum lib purchase_amount
                   (groupby category (rows filtered_df)))))
  else Ok None.

(** ** [analyze_data()] (lines 200-296), on the data set [df] *)

Definition analyze_data (lib : Library) (df : DataFrame) (spec : FilterSpec)
  (st : Session) : result (Session * Display) :=
  filtered_df <- apply_filters df spec ;;
  if empty filtered_df then
    Ok (mkSession pd_DataFrame (current_detail_option st) (details_popup st),
        Warning "No Data" "No records found for selected filters.")
  else
    let st := mkSession filtered_df (current_detail_option st) (details_popup st) in
    summary <- summarize lib filtered_df ;;
    chart <- category_chart lib filtered_df ;;
    match details_popup st with
    | Some true =>
        sr <- update_details_display lib (current_detail_option st) st ;;
        Ok (fst sr, Dashboard summary chart (snd sr))
    | _ => Ok (st, Dashboard summary chart None)
    end.

(** * The specification's notions *)

(** The columns the input file has at least. *)
Definition csv_header : list string :=
  ["Customer ID"; "Age"; "Gender"; "Item Purchased"; "Category";
   "Purchase Amount (USD)"; "Location"; "Color"; "Season"; "Review Rating";
   "Previous Purchases"].

(** The values of the age-range control (line 62). *)
Definition age_ranges : list string :=
  ["All"; "18-25"; "26-35"; "36-45"; "46-60"; "60+"].

(** "[18-25] -> age in [18,25]; ...; [60+] -> age > 60". *)
Definition in_age_range (age_range : string) (a : Z) : Prop :=
  (age_range = "18-25" /\ 18 <= a <= 25) \/
  (age_range = "26-35" /\ 26 <= a <= 35) \/
  (age_range = "36-45" /\ 36 <= a <= 45) \/
  (age_range = "46-60" /\ 46 <= a <= 60) \/
  (age_range = "60+" /\ 60 < a).

(** A record satisfies the conjunction of the active predicates of a
    selection; a criterion set to ["All"] imposes no predicate. *)
Definition matches (spec : FilterSpec) (r : Row) : Prop :=
  (gender_var spec = "All" \/ gender r = gender_var spec) /\
  (age_var spec = "All" \/ in_age_range (age_var spec) (age r)) /\
  (category_var spec = "All" \/ category r = category_var spec) /\
  (season_var spec = "All" \/ season r = season_var spec).

(** The selection with all four criteria unconstrained. *)
Definition unconstrained : FilterSpec := mkSpec "All" "All" "All" "All".

(** [s2] has the constraints of [s1] and one more: one criterion that [s1]
    leaves at ["All"] is set in [s2], the other three are the same. *)
Definition adds_constraint (s1 s2 : FilterSpec) : Prop :=
  (gender_var s1 = "All" /\ gender_var s2 <> "All" /\ age_var s2 = age_var s1 /\
   category_var s2 = category_var s1 /\ season_var s2 = season_var s1) \/
  (age_var s1 = "All" /\ age_var s2 <> "All" /\ gender_var s2 = gender_var s1 /\
   category_var s2 = category_var s1 /\ season_var s2 = season_var s1) \/
  (category_var s1 = "All" /\ category_var s2 <> "All" /\
   gender_var s2 = gender_var s1 /\ age_var s2 = age_var s1 /\
   season_var s2 = season_var s1) \/
  (season_var s1 = "All" /\ season_var s2 <> "All" /\
   gender_var s2 = gender_var s1 /\ age_var s2 = age_var s1 /\
   category_var s2 = category_var s1).

(** The classification as the specification states it:
    [0,25], (25,35], (35,45], (45,55], (55,65], (65,100]. *)
Definition AgeBucket (a : Z) : option string :=
  if (0 <=? a) && (a <=? 25) then Some "<25"
  else if (25 <? a) && (a <=? 35) then Some "25–35"
  else if (35 <? a) && (a <=? 45) then Some "35–45"
  else if (45 <? a) && (a <=? 55) then Some "45–55"
  else if (55 <? a) && (a <=? 65) then Some "55–65"
  else if (65 <? a) && (a <=? 100) then Some "65+"
  else None.

(** The number of rows of a bucket. *)
Definition bucket_count (lab : string) (l : list Row) : nat :=
  length (filter (fun r => match AgeBucket (age r) with
                           | Some b => String.eqb lab b
                           | None => false
                           end) l).

(** The number of rows of an item, and the mean rating over them. *)
Definition item_count (item : string) (l : list Row) : nat :=
  length (filter (fun r => String.eqb (item_purchased r) item) l).


(** The order of Python strings (by code point). *)
Abbreviation str_lt := String_as_OT.lt.

(** * Notions used to state the properties *)

(** The mask [apply_age_filter] applies for each selection. *)
Definition age_mask (age_range : string) (a : Z) : bool :=
  if String.eqb age_range "18-25" then (18 <=? a) && (a <=? 25)
  else if String.eqb age_range "26-35" then (26 <=? a) && (a <=? 35)
  else if String.eqb age_range "36-45" then (36 <=? a) && (a <=? 45)
  else if String.eqb age_range "46-60" then (46 <=? a) && (a <=? 60)
  else if String.eqb age_range "60+" then 60 <? a
  else true.

(** The conjunction of masks [analyze_data] applies for a selection. *)
Definition passes (spec : FilterSpec) (r : Row) : bool :=
  (String.eqb (gender_var spec) "All" || String.eqb (gender r) (gender_var spec))
  && (String.eqb (age_var spec) "All" || age_mask (age_var spec) (age r))
  && (String.eqb (category_var spec) "All"
      || String.eqb (category r) (category_var spec))
  && (String.eqb (season_var spec) "All"
      || String.eqb (season r) (season_var spec)).

(** The columns the four masks read. *)
Definition has_filter_columns (df : DataFrame) : Prop :=
  has_column df "Gender" = true /\ has_column df "Age" = true /\
  has_column df "Category" = true /\ has_column df "Season" = true.

(** Every expected column is present. *)
Definition full_schema (df : DataFrame) : Prop :=
  forall c, In c csv_header -> has_column df c = true.

(** The columns the pipeline needs for every selection and every report:
    all but the two whose absence the summary allows for. *)
Definition core_header : list string :=
  ["Customer ID"; "Age"; "Gender"; "Category"; "Purchase Amount (USD)";
   "Location"; "Color"; "Season"; "Previous Purchases"].

Definition core_schema (df : DataFrame) : Prop :=
  forall c, In c core_header -> has_column df c = true.

(** The summary a run displays, if it displays one. *)
Definition shown_summary (run : result (Session * Display)) : option Summary :=
  match run with
  | Ok (_, Dashboard summary _ _) => Some summary
  | _ => None
  end.

(** A row carries the bucket of its age in ['Age Group']. *)
Definition bucketed (r : Row) : Prop :=
  age_group r = cut (age r) age_bins age_labels.


(** The index of the Series grouped by item. *)
Definition item_keys (l : list Row) : list string :=
  map fst (groupby item_purchased l).

(** * A library to run the examples with

    One admissible choice of the library operations: exact sums and means,
    rounding half to even at the second decimal, and sorts that leave equal
    values in their order.  It serves to evaluate the model on the fixtures;
    no property is stated of it alone. *)

Definition exact_sum (xs : list Q) : Q := fold_left Qplus xs 0%Q.
Definition exact_mean (xs : list Q) : Q :=
  (exact_sum xs / inject_Z (Z.of_nat (length xs)))%Q.

Definition round_half_even (q : Q) : Z :=
  let n := Qnum q in
  let d := Zpos (Qden q) in
  let fl := n / d in
  let r := n mod d in
  if 2 * r <? d then fl
  else if d <? 2 * r then fl + 1
  else if Z.even fl then fl else fl + 1.

Definition round2_half_even (q : Q) : Q := Qmake (round_half_even (q * 100)) 100.

Definition stable_sort_counts (s : Series nat) : Series nat :=
  stable_sort (fun y x => (snd x <? snd y)%nat) s.
Definition stable_sort_totals (s : Series Q) : Series Q :=
  stable_sort (fun y x => negb (Qle_bool (snd y) (snd x))) s.

Definition reference : Library :=
  mkLibrary exact_sum exact_mean exact_sum exact_mean round2_half_even
            stable_sort_counts stable_sort_totals.

(** * Fixtures *)

(** A row of the file, before the bucket column is added. *)
Definition row (id a : Z) (g item cat : string) (amount : Q)
  (loc col sea : string) (rating : Q) (prev : Z) : Row :=
  mkRow id a g item cat amount loc col sea rating prev None.

Definition sample_csv : list Row :=
  [ row 1 30 "Female" "Boots" "Footwear" 50 "Ohio" "Red" "Winter" 4.5 7;
    row 2 40 "Male" "Boots" "Footwear" 30 "Texas" "Blue" "Winter" 3.25 2;
    row 3 60 "Male" "Shirt" "Clothing" 20 "Ohio" "Red" "Summer" 4 2;
    row 4 61 "Female" "Apron" "Clothing" 25 "Maine" "Gray" "Fall" 2.5 9;
    row 5 18 "Male" "Apron" "Clothing" 45 "Texas" "Red" "Spring" 3 0 ].

(** The data set [load] returns, for a file that has the ['Age'] column. *)
Definition loaded (csv_columns : list string) (csv_rows : list Row) : DataFrame :=
  match load csv_columns csv_rows with
  | Ok df => df
  | Raise _ => pd_DataFrame
  end.

Definition sample_df : DataFrame := loaded csv_header sample_csv.

Definition female_spec : FilterSpec := mkSpec "Female" "All" "All" "All".

Definition young_female_spec : FilterSpec := mkSpec "Female" "18-25" "All" "All".

(** The summaries displayed for the sample under two selections, with the
    reference library. *)
Definition female_summary : Summary :=
  Eval vm_compute in
    match shown_summary (analyze_data reference sample_df female_spec initial_session) with
    | Some s => s
    | None => mkSummary 0 None "" 0 None
    end.

Definition whole_summary : Summary :=
  Eval vm_compute in
    match shown_summary (analyze_data reference sample_df unconstrained initial_session) with
    | Some s => s
    | None => mkSummary 0 None "" 0 None
    end.

(** A data set with a single customer, aged 150. *)
Definition elder_csv : list Row :=
  [ row 7 150 "Male" "Scarf" "Accessories" 10 "Ohio" "Blue" "Fall" 4 1 ].

(** That customer as a loaded row. *)
Definition elder : Row :=
  set_age_group (row 7 150 "Male" "Scarf" "Accessories" 10 "Ohio" "Blue" "Fall" 4 1)
    None.

(** The header of the file with one column removed. *)
Definition header_without (c : string) : list string :=
  filter (fun x => negb (String.eqb x c)) csv_header.

(** * The callbacks as user actions *)

(** The commands the widgets are bound to: the analyze button and the start-up
    timer call [analyze_data] (lines 305, 309), the "Detailed Reports" button
    calls [show_details_popup] (line 290), the three buttons of the popup call
    [update_details_display] with their option (lines 113-115). *)
Inductive Action : Type :=
| Analyze (spec : FilterSpec)
| ShowDetails
| SelectReport (option_ : string).

Definition dispatch (lib : Library) (df : DataFrame) (a : Action) (st : Session)
  : result (Session * Display) :=
  match a with
  | Analyze spec => analyze_data lib df spec st
  | ShowDetails => show_details_popup lib st
  | SelectReport option_ =>
      sr <- update_details_display lib option_ st ;;
      Ok (fst sr, Details (snd sr))
  end.

(** A sequence of actions, one after the other; an exception ends it. *)
Fixpoint run_session (lib : Library) (df : DataFrame) (actions : list Action)
  (st : Session) : result (Session * list Display) :=
  match actions with
  | [] => Ok (st, [])
  | a :: actions' =>
      sd <- dispatch lib df a st ;;
      rest <- run_session lib df actions' (fst sd) ;;
      Ok (fst rest, snd sd :: snd rest)
  end.

(** * Further notions used to state the properties *)

(** A row is kept by an age-range selection. *)
Definition kept_by (df : DataFrame) (age_range : string) (r : Row) : Prop :=
  exists d, apply_age_filter df age_range = Ok d /\ In r (rows d).

(** The rows of a key value. *)
Definition rows_of (key : Row -> string) (k : string) (l : list Row) : list Row :=
  filter (fun r => String.eqb (key r) k) l.

(** The filtered set a session can hold for the data set [df]: none, or the
    non-empty rows of a selection. *)
Definition holds_filtered_set (df : DataFrame) (st : Session) : Prop :=
  last_filtered_df st = pd_DataFrame \/
  exists spec,
    last_filtered_df st = mkDF (columns df) (filter (passes spec) (rows df)) /\
    filter (passes spec) (rows df) <> [].

(** * Further fixtures *)

(** A session whose popup is open on the Loyalty Laggards report, and the
    run of the unconstrained analysis in it. *)
Definition open_session : Session :=
  mkSession pd_DataFrame "Least Purchases" (Some true).

Definition refreshed_run : Session * Display :=
  Eval vm_compute in
    match analyze_data reference sample_df unconstrained open_session with
    | Ok run => run
    | Raise _ => (open_session, Details None)
    end.

(** A user who analyses, opens the reports, switches report, then narrows the
    selection to nothing and switches again. *)
Definition sample_actions : list Action :=
  [ Analyze female_spec; ShowDetails; SelectReport "Color";
    Analyze young_female_spec; SelectReport "Least Purchases"; ShowDetails ].




(** * Properties *)

(** The properties are stated for an arbitrary library; where a proof
    needs the sorts to sort, it uses [lib_lawful]. *)
Section Properties.
Variable lib : Library.
Hypothesis lib_lawful : lawful lib.

(** ** Columns and masks *)

Lemma has_column_In (df : DataFrame) (c : string) :
  has_column df c = true <-> In c (columns df).
Proof.
  unfold has_column. rewrite existsb_exists. split.
  - intros [x [Hx Heq]]. apply String.eqb_eq in Heq. now subst.
  - intros H. exists c. split; [assumption | apply String.eqb_refl].
Qed.

Lemma filter_all {A : Type} (l : list A) : filter (fun _ => true) l = l.
Proof. induction l as [| x l IH]; simpl; congruence. Qed.

Lemma filter_filter {A : Type} (p q : A -> bool) (l : list A) :
  filter q (filter p l) = filter (fun x => p x && q x) l.
Proof.
  induction l as [| x l IH]; simpl; [reflexivity |].
  destruct (p x); simpl; [destruct (q x) |]; now rewrite IH.
Qed.

Lemma getitem_columns_ok (df : DataFrame) (cols : list string) :
  (forall c, In c cols -> has_column df c = true) ->
  getitem_columns df cols = Ok (mkDF cols (rows df)).
Proof.
  intros H. unfold getitem_columns.
  replace (filter (fun c => negb (has_column df c)) cols) with (@nil string);
    [reflexivity |].
  symmetry. induction cols as [| c cols IH]; [reflexivity |].
  cbn [filter]. rewrite (H c (or_introl eq_refl)). cbn [negb].
  apply IH. intros c' Hc'. apply H. now right.
Qed.

Lemma select_ok (df : DataFrame) (c : string) (mask : Row -> bool) :
  has_column df c = true ->
  select df c mask = Ok (mkDF (columns df) (filter mask (rows df))).
Proof. intros H. unfold select. now rewrite H. Qed.

Lemma apply_age_filter_mask (df : DataFrame) (age_range : string) :
  has_column df "Age" = true ->
  apply_age_filter df age_range =
  Ok (mkDF (columns df) (filter (fun r => age_mask age_range (age r)) (rows df))).
Proof.
  intros H. unfold apply_age_filter, age_mask.
  repeat (destruct (String.eqb age_range _); [now apply select_ok |]).
  rewrite filter_all. now destruct df.
Qed.

Lemma filter_ext_eq {A : Type} (p q : A -> bool) (l : list A) :
  (forall x, p x = q x) -> filter p l = filter q l.
Proof. intros H. induction l as [| x l IH]; simpl; [| rewrite H, IH]; reflexivity. Qed.

Lemma apply_filters_passes (df : DataFrame) (spec : FilterSpec) :
  has_filter_columns df ->
  apply_filters df spec = Ok (mkDF (columns df) (filter (passes spec) (rows df))).
Proof.
  destruct df as [cols l0]. intros (Hg & Ha & Hc & Hs). unfold apply_filters.
  cbn [columns rows].
  set (g := String.eqb (gender_var spec) "All").
  set (a := String.eqb (age_var spec) "All").
  set (c := String.eqb (category_var spec) "All").
  set (s := String.eqb (season_var spec) "All").
  assert (Step : forall (b : bool) (l : list Row) (col : string) (m : Row -> bool),
             has_column (mkDF cols l0) col = true ->
             (if negb b then select (mkDF cols l) col m else Ok (mkDF cols l))
             = Ok (mkDF cols (filter (fun r => b || m r) l))).
  { intros b l col m Hcol. destruct b; simpl.
    - now rewrite filter_all.
    - now rewrite select_ok. }
  assert (StepA : forall (l : list Row),
             (if negb a then apply_age_filter (mkDF cols l) (age_var spec)
              else Ok (mkDF cols l))
             = Ok (mkDF cols
                     (filter (fun r => a || age_mask (age_var spec) (age r)) l))).
  { intros l. destruct a; simpl.
    - now rewrite filter_all.
    - now rewrite apply_age_filter_mask. }
  rewrite (Step g l0 "Gender") by assumption. cbn [bind].
  rewrite StepA. cbn [bind].
  rewrite (Step c _ "Category") by assumption. cbn [bind].
  rewrite (Step s _ "Season") by assumption. cbn [bind].
  rewrite !filter_filter. f_equal. f_equal.
  apply filter_ext_eq. intros r. unfold passes. fold g a c s.
  now rewrite !andb_assoc.
Qed.

(** ** The masks and the predicates of the specification *)

Lemma age_mask_in_age_range (age_range : string) (a : Z) :
  In age_range (tl age_ranges) ->
  age_mask age_range a = true <-> in_age_range age_range a.
Proof.
  unfold in_age_range. simpl.
  intros [H | [H | [H | [H | [H | []]]]]]; subst age_range; cbn;
    rewrite ?andb_true_iff, ?Z.leb_le, ?Z.ltb_lt;
    (split; [intros H; tauto |]);
    intros [[E H] | [[E H] | [[E H] | [[E H] | [E H]]]]];
    try discriminate E; assumption.
Qed.

Lemma passes_matches (spec : FilterSpec) (r : Row) :
  In (age_var spec) age_ranges ->
  passes spec r = true <-> matches spec r.
Proof.
  intros Hv. unfold passes, matches.
  rewrite !andb_true_iff, !orb_true_iff, !String.eqb_eq.
  assert (Ha : age_var spec = "All" \/ age_mask (age_var spec) (age r) = true <->
               age_var spec = "All" \/ in_age_range (age_var spec) (age r)).
  { destruct Hv as [Hv | Hv].
    - split; intros _; left; now symmetry.
    - now rewrite (age_mask_in_age_range _ _ Hv). }
  tauto.
Qed.

(** C1.  With the ['Age'] column present, each age-range selection keeps
    exactly the rows whose age lies in the range it names (in their order,
    with their multiplicity): [18,25], [26,35], [36,45], [46,60], and above
    60 for ['60+']; a row of age 60 is kept by ['46-60'] and dropped by
    ['60+']. *)
Theorem apply_age_filter_keeps_range (df : DataFrame) (age_range : string) :
  has_column df "Age" = true ->
  In age_range ["18-25"; "26-35"; "36-45"; "46-60"; "60+"] ->
  exists kept : list Row,
    apply_age_filter df age_range = Ok (mkDF (columns df) kept) /\
    (exists keep : Row -> bool,
        kept = filter keep (rows df) /\
        forall r, keep r = true <-> in_age_range age_range (age r)) /\
    (forall r, In r kept <-> In r (rows df) /\ in_age_range age_range (age r)) /\
    (forall r, In r (rows df) -> age r = 60 ->
               (age_range = "46-60" -> In r kept) /\
               (age_range = "60+" -> ~ In r kept)).
Proof.
  intros Hcol Hin.
  exists (filter (fun r => age_mask age_range (age r)) (rows df)).
  assert (Hspec : forall r, age_mask age_range (age r) = true <->
                            in_age_range age_range (age r))
    by (intros r; now apply age_mask_in_age_range).
  assert (Hmem : forall r,
             In r (filter (fun r => age_mask age_range (age r)) (rows df)) <->
             In r (rows df) /\ in_age_range age_range (age r)).
  { intros r. rewrite filter_In. now rewrite Hspec. }
  split; [now apply apply_age_filter_mask |].
  split; [exists (fun r => age_mask age_range (age r)); now split |].
  split; [exact Hmem |].
  intros r Hr H60. split; intros ->.
  - apply Hmem. split; [assumption |]. unfold in_age_range. rewrite H60.
    right; right; right; left. split; [reflexivity | lia].
  - intros Hk. apply Hmem in Hk. destruct Hk as [_ Hk]. unfold in_age_range in Hk.
    rewrite H60 in Hk.
    destruct Hk as [[E H] | [[E H] | [[E H] | [[E H] | [E H]]]]];
      try discriminate E; lia.
Qed.

(** C6.  The selection with all four criteria at ["All"] returns the data set
    itself, and [analyze_data] then stores that same data set as the current
    filtered set. *)
Theorem unconstrained_selects_everything (df : DataFrame) :
  apply_filters df unconstrained = Ok df /\
  (forall st st' shown,
      analyze_data lib df unconstrained st = Ok (st', shown) ->
      empty df = false -> last_filtered_df st' = df).
Proof.
  split; [reflexivity |].
  intros st st' shown. unfold analyze_data.
  change (apply_filters df unconstrained) with (Ok df). cbn [bind].
  intros H He. rewrite He in H.
  destruct (summarize lib df) as [s | e]; cbn [bind] in H; [| discriminate H].
  destruct (category_chart lib df) as [c | e]; cbn [bind] in H; [| discriminate H].
  cbn [details_popup] in H.
  destruct (details_popup st) as [[|] |]; try (now inversion H).
  unfold update_details_display in H. cbn in H.
  destruct (detail_report lib df (current_detail_option st)); cbn in H;
    now inversion H.
Qed.

(** C9.  When the second selection has the constraints of the first and one
    more, its filtered set is contained in the filtered set of the first (it
    is a filtering of it, so order and multiplicity agree as well). *)
Theorem adding_a_constraint_narrows (df : DataFrame) (s1 s2 : FilterSpec) :
  has_filter_columns df ->
  adds_constraint s1 s2 ->
  exists f1 f2 : DataFrame,
    apply_filters df s1 = Ok f1 /\ apply_filters df s2 = Ok f2 /\
    incl (rows f2) (rows f1) /\
    exists extra : Row -> bool, rows f2 = filter extra (rows f1).
Proof.
  intros Hcols Hadd.
  exists (mkDF (columns df) (filter (passes s1) (rows df))),
         (mkDF (columns df) (filter (passes s2) (rows df))).
  rewrite !apply_filters_passes by assumption.
  assert (Himp : forall r, passes s2 r = true -> passes s1 r = true).
  { intros r. unfold passes.
    destruct Hadd as [(E1 & _ & E2 & E3 & E4) | [(E1 & _ & E2 & E3 & E4)
                     | [(E1 & _ & E2 & E3 & E4) | (E1 & _ & E2 & E3 & E4)]]];
      rewrite E1, E2, E3, E4; cbn [String.eqb orb andb];
      rewrite !andb_true_iff; tauto. }
  assert (Hrows : filter (passes s2) (rows df)
                  = filter (passes s2) (filter (passes s1) (rows df))).
  { rewrite filter_filter. apply filter_ext_eq. intros r.
    destruct (passes s2 r) eqn:E2.
    - now rewrite (Himp r E2).
    - now rewrite andb_false_r. }
  repeat split; cbn [rows].
  - intros r. rewrite !filter_In. intros [Hr Hp]. split; [assumption | now apply Himp].
  - exists (passes s2). exact Hrows.
Qed.

(** ** What a successful run went through *)

Lemma bind_Ok {A B : Type} (c : result A) (k : A -> result B) (b : B) :
  bind c k = Ok b -> exists a, c = Ok a /\ k a = Ok b.
Proof. destruct c as [a | e]; simpl; [eauto | discriminate]. Qed.

Lemma select_inv (df d : DataFrame) (c : string) (mask : Row -> bool) :
  select df c mask = Ok d ->
  has_column df c = true /\ d = mkDF (columns df) (filter mask (rows df)).
Proof.
  unfold select. destruct (has_column df c); [| discriminate].
  intros H. inversion H. now split.
Qed.

Lemma apply_age_filter_inv (df d : DataFrame) (age_range : string) :
  apply_age_filter df age_range = Ok d ->
  d = mkDF (columns df) (filter (fun r => age_mask age_range (age r)) (rows df)).
Proof.
  unfold apply_age_filter, age_mask.
  repeat (destruct (String.eqb age_range _);
          [intros H; now apply select_inv in H |]).
  intros H. inversion H. rewrite filter_all. now destruct d.
Qed.

Lemma apply_filters_inv (df fdf : DataFrame) (spec : FilterSpec) :
  apply_filters df spec = Ok fdf ->
  fdf = mkDF (columns df) (filter (passes spec) (rows df)).
Proof.
  destruct df as [cols l0]. unfold apply_filters. cbn [columns rows].
  assert (Step : forall (b : bool) (l : list Row) (col : string)
                        (m : Row -> bool) (d : DataFrame),
             (if negb b then select (mkDF cols l) col m else Ok (mkDF cols l)) = Ok d ->
             d = mkDF cols (filter (fun r => b || m r) l)).
  { intros b l col m d. destruct b; simpl; intros H.
    - inversion H. now rewrite filter_all.
    - now apply select_inv in H. }
  intros H.
  apply bind_Ok in H. destruct H as (d1 & H1 & H).
  apply bind_Ok in H. destruct H as (d2 & H2 & H).
  apply bind_Ok in H. destruct H as (d3 & H3 & H).
  apply bind_Ok in H. destruct H as (d4 & H4 & H).
  inversion H. subst d4. clear H.
  apply Step in H1. subst d1.
  assert (E2 : d2 = mkDF cols
                 (filter (fun r => String.eqb (age_var spec) "All"
                                   || age_mask (age_var spec) (age r))
                    (filter (fun r => String.eqb (gender_var spec) "All"
                                      || String.eqb (gender r) (gender_var spec)) l0))).
  { destruct (String.eqb (age_var spec) "All"); simpl in H2 |- *.
    - inversion H2. now rewrite filter_all.
    - now apply apply_age_filter_inv in H2. }
  subst d2. apply Step in H3. subst d3. apply Step in H4. subst fdf.
  rewrite !filter_filter. f_equal. apply filter_ext_eq. intros r.
  unfold passes. now rewrite !andb_assoc.
Qed.

Lemma update_details_display_keeps_data (option_ : string) (st st' : Session)
  (report : option Report) :
  update_details_display lib option_ st = Ok (st', report) ->
  last_filtered_df st' = last_filtered_df st.
Proof.
  unfold update_details_display. cbn [details_popup last_filtered_df].
  destruct (details_popup st).
  - destruct (detail_report lib _ _); simpl; intros H; now inversion H.
  - intros H. now inversion H.
Qed.

Lemma analyze_data_dashboard (df : DataFrame) (spec : FilterSpec)
  (st st' : Session) (s : Summary) (chart : option (Series Q))
  (details : option Report) :
  analyze_data lib df spec st = Ok (st', Dashboard s chart details) ->
  let filtered_df := mkDF (columns df) (filter (passes spec) (rows df)) in
  apply_filters df spec = Ok filtered_df /\ empty filtered_df = false /\
  summarize lib filtered_df = Ok s /\ last_filtered_df st' = filtered_df.
Proof.
  unfold analyze_data. intros H.
  apply bind_Ok in H. destruct H as (fdf & Hf & H).
  pose proof (apply_filters_inv _ _ _ Hf) as E. rewrite <- E. cbn zeta.
  destruct (empty fdf); [inversion H |].
  apply bind_Ok in H. destruct H as (s0 & Hs & H).
  apply bind_Ok in H. destruct H as (c0 & Hc & H).
  cbn [details_popup] in H.
  assert (s0 = s /\ last_filtered_df st' = fdf) as [-> ->].
  { destruct (details_popup st) as [[|] |].
    - apply bind_Ok in H. destruct H as ([st1 r1] & Hu & H).
      apply update_details_display_keeps_data in Hu. cbn in Hu, H.
      inversion H. subst. now split.
    - inversion H. now split.
    - inversion H. now split. }
  repeat split; assumption.
Qed.

Lemma shown_summary_Some (df : DataFrame) (spec : FilterSpec) (st : Session)
  (s : Summary) :
  shown_summary (analyze_data lib df spec st) = Some s ->
  let filtered_df := mkDF (columns df) (filter (passes spec) (rows df)) in
  empty filtered_df = false /\ summarize lib filtered_df = Ok s.
Proof.
  destruct (analyze_data lib df spec st) as [[st' [t m | r | s' chart details]] | e] eqn:E;
    simpl; try discriminate.
  intros H. inversion H. subst s'.
  apply analyze_data_dashboard in E. cbn zeta in E. tauto.
Qed.

Lemma summarize_total_sales (filtered_df : DataFrame) (s : Summary) :
  summarize lib filtered_df = Ok s ->
  total_sales s = series_sum lib (map purchase_amount (rows filtered_df)) /\
  most_active_age_group filtered_df = Ok (top_age_group s) /\
  recommended_items lib filtered_df = Ok (rec_items s) /\
  total_records s = length (rows filtered_df).
Proof.
  unfold summarize. intros H.
  apply bind_Ok in H. destruct H as (amounts & Ha & H).
  apply bind_Ok in H. destruct H as (g & Hg & H).
  apply bind_Ok in H. destruct H as (items & Hi & H).
  inversion H. cbn. unfold column in Ha.
  destruct (has_column filtered_df "Purchase Amount (USD)"); [| discriminate].
  inversion Ha. repeat split; assumption.
Qed.

(** ** Age buckets *)

Lemma cut_AgeBucket (a : Z) : cut a age_bins age_labels = AgeBucket a.
Proof. reflexivity. Qed.

Lemma AgeBucket_label (a : Z) (lab : string) :
  AgeBucket a = Some lab -> In lab age_labels.
Proof.
  unfold AgeBucket.
  repeat match goal with
         | |- (if ?b then _ else _) = _ -> _ =>
             destruct b; [intros H; inversion H; simpl; tauto |]
         end.
  discriminate.
Qed.

Lemma AgeBucket_None (a : Z) : AgeBucket a = None <-> a < 0 \/ 100 < a.
Proof.
  unfold AgeBucket.
  destruct (Z.leb_spec 0 a), (Z.leb_spec a 25), (Z.ltb_spec 25 a),
    (Z.leb_spec a 35), (Z.ltb_spec 35 a), (Z.leb_spec a 45),
    (Z.ltb_spec 45 a), (Z.leb_spec a 55), (Z.ltb_spec 55 a),
    (Z.leb_spec a 65), (Z.ltb_spec 65 a), (Z.leb_spec a 100);
    cbn [andb]; split; intros Hn; try discriminate Hn; try lia; reflexivity.
Qed.

Lemma count_label_map {A : Type} (f : A -> option string) (lab : string)
  (l : list A) :
  count_label lab (map f l)
  = length (filter (fun r => match f r with
                             | Some b => String.eqb lab b
                             | None => false
                             end) l).
Proof.
  unfold count_label. induction l as [| x l IH]; [reflexivity |].
  cbn [map dropna filter]. destruct (f x) as [b |]; [| exact IH].
  cbn [filter]. destruct (String.eqb lab b); cbn [length]; now rewrite IH.
Qed.

Lemma load_inv (csv_columns : list string) (csv_rows : list Row) (df : DataFrame) :
  load csv_columns csv_rows = Ok df ->
  In "Age" (columns df) /\ In "Age Group" (columns df) /\
  incl csv_columns (columns df) /\ Forall bucketed (rows df) /\
  length (rows df) = length csv_rows.
Proof.
  unfold load, column. destruct (has_column _ "Age") eqn:Ha; [| discriminate].
  cbn [bind]. intros H. inversion H. clear H. cbn [columns rows].
  apply has_column_In in Ha. cbn [columns] in Ha.
  destruct (has_column _ "Age Group") eqn:Hg.
  - apply has_column_In in Hg. cbn [columns] in Hg.
    repeat split; try assumption; try apply incl_refl.
    + apply Forall_forall. intros r Hr. apply in_map_iff in Hr.
      destruct Hr as (r0 & <- & _). reflexivity.
    + apply length_map.
  - repeat split.
    + apply in_or_app. now left.
    + apply in_or_app. right. now left.
    + now apply incl_appl, incl_refl.
    + apply Forall_forall. intros r Hr. apply in_map_iff in Hr.
      destruct Hr as (r0 & <- & _). reflexivity.
    + apply length_map.
Qed.

Lemma Forall_filter {A : Type} (P : A -> Prop) (p : A -> bool) (l : list A) :
  Forall P l -> Forall P (filter p l).
Proof.
  rewrite !Forall_forall. intros H x Hx. apply filter_In in Hx. now apply H.
Qed.

(** ** The mode of a categorical column *)

Lemma max_ge {A : Type} (f : A -> nat) (l : list A) (x : A) :
  In x l -> (f x <= fold_right Nat.max 0 (map f l))%nat.
Proof.
  induction l as [| y l IH]; [intros [] |].
  intros [-> | H]; cbn [map fold_right]; [lia |].
  specialize (IH H). lia.
Qed.

Lemma max_attained {A : Type} (f : A -> nat) (l : list A) :
  fold_right Nat.max 0%nat (map f l) <> 0%nat ->
  exists x, In x l /\ f x = fold_right Nat.max 0%nat (map f l).
Proof.
  induction l as [| y l IH]; cbn [map fold_right]; [intros H; now elim H |].
  intros H. destruct (Nat.max_spec (f y) (fold_right Nat.max 0%nat (map f l)))
    as [[Hlt E] | [Hle E]]; rewrite E.
  - destruct IH as (x & Hx & Ex); [lia |]. exists x. split; [now right | assumption].
  - exists y. split; [now left | reflexivity].
Qed.

Lemma filter_head {A : Type} (p : A -> bool) (l : list A) (x : A) (rest : list A) :
  filter p l = x :: rest ->
  exists before after,
    l = (before ++ x :: after)%list /\ p x = true /\ forall y, In y before -> p y = false.
Proof.
  induction l as [| y l IH]; [discriminate |].
  cbn [filter]. destruct (p y) eqn:E.
  - intros H. inversion H. subst. exists [], l. repeat split; [assumption |].
    intros z [].
  - intros H. destruct (IH H) as (before & after & -> & Hp & Hb).
    exists (y :: before), after. repeat split; [assumption |].
    intros z [<- | Hz]; [assumption | now apply Hb].
Qed.

Lemma mode_head (categories : list string) (xs : list (option string))
  (top : string) (rest : list string) :
  mode categories xs = top :: rest ->
  In top categories /\
  (forall c, In c categories -> (count_label c xs <= count_label top xs)%nat) /\
  exists before after,
    categories = (before ++ top :: after)%list /\
    forall c, In c before -> (count_label c xs < count_label top xs)%nat.
Proof.
  unfold mode.
  set (m := fold_right Nat.max 0%nat (map (fun c => count_label c xs) categories)).
  destruct (Nat.eqb_spec m 0); [discriminate |].
  intros H. apply filter_head in H.
  destruct H as (before & after & E & Htop & Hb). apply Nat.eqb_eq in Htop.
  assert (Hmax : forall c, In c categories -> (count_label c xs <= m)%nat).
  { intros c Hc. now apply (max_ge (fun c => count_label c xs)). }
  split; [rewrite E; apply in_or_app; right; now left |].
  split; [intros c Hc; rewrite Htop; now apply Hmax |].
  exists before, after. split; [assumption |].
  intros c Hc. specialize (Hb c Hc). apply Nat.eqb_neq in Hb.
  assert (In c categories) by (rewrite E; apply in_or_app; now left).
  specialize (Hmax c H). lia.
Qed.

Lemma mode_nonempty (categories : list string) (xs : list (option string))
  (c : string) :
  In c categories -> (0 < count_label c xs)%nat -> mode categories xs <> [].
Proof.
  intros Hc Hpos. unfold mode.
  set (m := fold_right Nat.max 0%nat (map (fun c => count_label c xs) categories)).
  assert (Hm : m <> 0%nat).
  { pose proof (max_ge (fun c => count_label c xs) categories c Hc). fold m in H. lia. }
  destruct (Nat.eqb_spec m 0); [contradiction |].
  destruct (max_attained (fun c => count_label c xs) categories Hm) as (x & Hx & Ex).
  intros Hnil.
  assert (Hin : In x (filter (fun c => (count_label c xs =? m)%nat) categories)).
  { apply filter_In. split; [assumption |]. apply Nat.eqb_eq. exact Ex. }
  rewrite Hnil in Hin. exact Hin.
Qed.

Lemma mode_all_nan (categories : list string) (xs : list (option string)) :
  dropna xs = [] -> mode categories xs = [].
Proof.
  intros H. unfold mode, count_label. rewrite H. cbn [filter length].
  replace (fold_right Nat.max 0%nat (map (fun _ => 0%nat) categories)) with 0%nat;
    [reflexivity |].
  induction categories as [| c l IH]; [reflexivity |]. cbn. exact IH.
Qed.

Lemma nunique_pos (xs : list (option string)) :
  (0 <? nunique xs)%nat = negb (length (dropna xs) =? 0)%nat.
Proof.
  unfold nunique. destruct (dropna xs) as [| x l]; [reflexivity |].
  assert (H : In x (nodup string_dec (x :: l))) by (apply nodup_In; now left).
  destruct (nodup string_dec (x :: l)); [destruct H | reflexivity].
Qed.

Lemma dropna_In {A : Type} (xs : list (option A)) (x : A) :
  In x (dropna xs) <-> In (Some x) xs.
Proof.
  induction xs as [| [y |] xs IH]; cbn [dropna In].
  - tauto.
  - rewrite IH. split; intros [H | H]; auto; left; congruence.
  - rewrite IH. split; [auto | intros [H | H]; [discriminate | assumption]].
Qed.

(** Lines 228-232 on rows that carry their bucket: the first mode of the
    recomputed buckets, or ["N/A"] when no row has a bucket. *)
Lemma most_active_age_group_inv (filtered_df : DataFrame) (lab : string) :
  most_active_age_group filtered_df = Ok lab ->
  Forall bucketed (rows filtered_df) ->
  let current := map (fun r => AgeBucket (age r)) (rows filtered_df) in
  (dropna current = [] /\ lab = "N/A") \/
  (dropna current <> [] /\ exists rest, mode age_labels current = lab :: rest).
Proof.
  intros H Hb. cbn zeta. unfold most_active_age_group, column in H.
  destruct (has_column filtered_df "Age Group"); [| discriminate]. cbn [bind] in H.
  assert (E : map age_group (rows filtered_df)
              = map (fun r => AgeBucket (age r)) (rows filtered_df)).
  { apply map_ext_in. intros r Hr. rewrite Forall_forall in Hb. exact (Hb r Hr). }
  rewrite E, nunique_pos in H.
  destruct (dropna (map (fun r => AgeBucket (age r)) (rows filtered_df)))
    as [| b l] eqn:Ed.
  - left. split; [reflexivity |]. cbn in H. rewrite andb_false_r in H.
    now inversion H.
  - right. split; [discriminate |].
    assert (Hlen : (length (map (fun r => AgeBucket (age r)) (rows filtered_df)) =? 0)%nat
                   = false).
    { destruct (rows filtered_df); [discriminate Ed | reflexivity]. }
    rewrite Hlen in H. cbn [negb andb length Nat.eqb] in H.
    destruct (has_column filtered_df "Age"); [| discriminate]. cbn [bind] in H.
    rewrite map_map in H.
    change (fun x => cut (age x) age_bins age_labels)
      with (fun r => AgeBucket (age r)) in H.
    destruct (mode age_labels (map (fun r => AgeBucket (age r)) (rows filtered_df)))
      as [| top rest]; [discriminate H |].
    inversion H. now exists rest.
Qed.

Lemma bucket_count_count_label (lab : string) (l : list Row) :
  count_label lab (map (fun r => AgeBucket (age r)) l) = bucket_count lab l.
Proof. apply (count_label_map (fun r => AgeBucket (age r))). Qed.

Lemma AgeBucket_in_range (a : Z) : 0 <= a <= 100 -> exists lab, AgeBucket a = Some lab.
Proof.
  intros H. destruct (AgeBucket a) as [lab |] eqn:E; [now exists lab |].
  apply AgeBucket_None in E. lia.
Qed.

(** C5, amended.  On a loaded data set, when a run displays a summary: every
    row of the filtered set carries, as its load-time bucket, the bucket
    recomputed from its age by the fixed classification; if some row of the
    filtered set has its age in [0,100], the reported age group is one of the
    six buckets, no bucket has more rows in the filtered set, and every
    bucket listed before it has fewer; if no row has its age in [0,100], the
    report is ["N/A"]. *)
Theorem top_age_group_most_frequent (csv_columns : list string)
  (csv_rows : list Row) (df : DataFrame) (spec : FilterSpec) (st : Session)
  (s : Summary) :
  load csv_columns csv_rows = Ok df ->
  shown_summary (analyze_data lib df spec st) = Some s ->
  exists filtered_df,
    apply_filters df spec = Ok filtered_df /\
    rows filtered_df <> [] /\
    (forall r, In r (rows filtered_df) ->
               age_group r = AgeBucket (age r) /\
               cut (age r) age_bins age_labels = AgeBucket (age r)) /\
    ((exists r, In r (rows filtered_df) /\ 0 <= age r <= 100) ->
     In (top_age_group s) age_labels /\
     (forall lab, In lab age_labels ->
        (bucket_count lab (rows filtered_df)
         <= bucket_count (top_age_group s) (rows filtered_df))%nat) /\
     exists before after,
       age_labels = (before ++ top_age_group s :: after)%list /\
       forall lab, In lab before ->
         (bucket_count lab (rows filtered_df)
          < bucket_count (top_age_group s) (rows filtered_df))%nat) /\
    ((forall r, In r (rows filtered_df) -> age r < 0 \/ 100 < age r) ->
     top_age_group s = "N/A").
Proof.
  intros Hload Hs.
  destruct (analyze_data lib df spec st) as [[st' [t m | r | s' chart details]] | e] eqn:E;
    try discriminate Hs.
  cbn in Hs. inversion Hs. subst s'. clear Hs.
  apply analyze_data_dashboard in E. cbn zeta in E.
  destruct E as (Hf & He & Hsum & _).
  set (fdf := mkDF (columns df) (filter (passes spec) (rows df))) in *.
  apply summarize_total_sales in Hsum. destruct Hsum as (_ & Hg & _).
  apply load_inv in Hload. destruct Hload as (_ & _ & _ & Hb & _).
  assert (Hbf : Forall bucketed (rows fdf)) by (now apply Forall_filter).
  apply most_active_age_group_inv in Hg; [| assumption]. cbn zeta in Hg.
  exists fdf. split; [assumption |].
  split.
  { intros Hnil. unfold empty in He. rewrite Hnil in He.
    destruct (columns fdf); discriminate He. }
  split.
  { intros r Hr. rewrite Forall_forall in Hbf. split; [exact (Hbf r Hr) | reflexivity]. }
  split.
  - intros (r & Hr & Hage).
    destruct (AgeBucket_in_range _ Hage) as (b & Eb).
    assert (Hin : In b (dropna (map (fun r => AgeBucket (age r)) (rows fdf)))).
    { apply dropna_In. rewrite <- Eb. now apply (in_map (fun r => AgeBucket (age r))). }
    destruct Hg as [[Hnil _] | [_ (rest & Hmode)]];
      [rewrite Hnil in Hin; destruct Hin |].
    apply mode_head in Hmode. destruct Hmode as (Htop & Hmax & before & after & Ecat & Hbefore).
    split; [assumption |].
    split.
    + intros lab Hlab. rewrite <- !bucket_count_count_label. now apply Hmax.
    + exists before, after. split; [assumption |].
      intros lab Hlab. rewrite <- !bucket_count_count_label. now apply Hbefore.
  - intros Hout. destruct Hg as [[_ Hna] | [Hne _]]; [assumption |].
    exfalso. apply Hne.
    destruct (dropna (map (fun r => AgeBucket (age r)) (rows fdf))) as [| b l] eqn:Ed;
      [reflexivity |].
    assert (Hin : In b (dropna (map (fun r => AgeBucket (age r)) (rows fdf))))
      by (rewrite Ed; now left).
    apply dropna_In, in_map_iff in Hin. destruct Hin as (r & Er & Hr).
    specialize (Hout r Hr). apply AgeBucket_None in Hout. congruence.
Qed.

(** ** Ages above the last bin *)

Lemma dropna_app {A : Type} (xs ys : list (option A)) :
  dropna (xs ++ ys) = (dropna xs ++ dropna ys)%list.
Proof.
  induction xs as [| [x |] xs IH]; cbn [dropna app]; [reflexivity | | assumption].
  now rewrite IH.
Qed.

Lemma mode_dropna (categories : list string) (xs ys : list (option string)) :
  dropna xs = dropna ys -> mode categories xs = mode categories ys.
Proof. intros H. unfold mode, count_label. now rewrite H. Qed.

Lemma nonempty_guard (xs : list (option string)) :
  negb (length xs =? 0)%nat && (0 <? nunique xs)%nat
  = negb (length (dropna xs) =? 0)%nat.
Proof.
  rewrite nunique_pos. destruct xs as [| x xs]; [reflexivity |].
  reflexivity.
Qed.

(** C10.  A row whose age is above 100 gets no bucket; it adds nothing to the
    count of any bucket, and the reported age group of a filtered set is the
    same with the row and without it. *)
Theorem age_over_100_has_no_bucket (r : Row) :
  100 < age r ->
  cut (age r) age_bins age_labels = None /\
  (forall lab l1 l2,
      count_label lab (map (fun x => cut (age x) age_bins age_labels) (l1 ++ r :: l2))
      = count_label lab (map (fun x => cut (age x) age_bins age_labels) (l1 ++ l2))) /\
  (forall cols l1 l2,
      bucketed r ->
      most_active_age_group (mkDF cols (l1 ++ r :: l2))
      = most_active_age_group (mkDF cols (l1 ++ l2))) /\
  (forall cols l1 l2 lab,
      bucketed r ->
      most_active_age_group (mkDF cols (l1 ++ r :: l2)) = Ok lab ->
      age_group r <> Some lab).
Proof.
  intros Hage.
  assert (Hnone : cut (age r) age_bins age_labels = None).
  { rewrite cut_AgeBucket. apply AgeBucket_None. now right. }
  assert (Hdrop : forall (f : Row -> option string) l1 l2,
             f r = None ->
             dropna (map f (l1 ++ r :: l2)) = dropna (map f (l1 ++ l2))).
  { intros f l1 l2 Hf. rewrite !map_app, !dropna_app. cbn [map dropna].
    now rewrite Hf. }
  split; [assumption |].
  split.
  { intros lab l1 l2. unfold count_label. now rewrite Hdrop. }
  split.
  - intros cols l1 l2 Hb. unfold bucketed in Hb. rewrite Hnone in Hb.
    unfold most_active_age_group, column. cbn [rows].
    change (has_column (mkDF cols (l1 ++ r :: l2))) with (has_column (mkDF cols (l1 ++ l2))).
    destruct (has_column _ "Age Group"); [| reflexivity]. cbn [bind].
    rewrite !nonempty_guard, (Hdrop age_group l1 l2 Hb).
    destruct (negb _); [| reflexivity].
    destruct (has_column _ "Age"); [| reflexivity]. cbn [bind].
    rewrite !map_map. f_equal. apply mode_dropna.
    now apply (Hdrop (fun x => cut (age x) age_bins age_labels)).
  - intros cols l1 l2 lab Hb _. unfold bucketed in Hb. rewrite Hb, Hnone. discriminate.
Qed.

(** ** The stable sort *)

Section StableSortFacts.
Context {A : Type}.
Variable before : A -> A -> bool.

Lemma stable_insert_perm (x : A) (l : list A) :
  Permutation (stable_insert before x l) (x :: l).
Proof.
  induction l as [| y l IH]; cbn [stable_insert]; [reflexivity |].
  destruct (before y x); [| reflexivity].
  rewrite IH. apply perm_swap.
Qed.

Lemma stable_sort_perm (l : list A) : Permutation (stable_sort before l) l.
Proof.
  induction l as [| x l IH]; cbn [stable_sort fold_right]; [reflexivity |].
  fold (stable_sort before l). rewrite stable_insert_perm. now constructor.
Qed.

Lemma stable_sort_length (l : list A) : length (stable_sort before l) = length l.
Proof. apply Permutation_length, stable_sort_perm. Qed.



(** Sortedness for an order [R] that refines [before] by the original
    position: [x] is [R]-before whatever it is not strictly after. *)
Variable R : A -> A -> Prop.
Hypothesis R_before : forall y x, before y x = true -> R y x.
Hypothesis R_trans_tie :
  forall x y z, before y x = false -> R y z -> before z x = false.

Lemma stable_insert_sorted (x : A) (l : list A) :
  StronglySorted R l ->
  Forall (fun y => before y x = false -> R x y) l ->
  StronglySorted R (stable_insert before x l).
Proof.
  induction l as [| y l IH]; cbn [stable_insert]; intros Hs Hx.
  - constructor; constructor.
  - inversion Hs as [| y' l' Hs' Hy]. subst. inversion Hx as [| y' l' Hxy Hxl]. subst.
    destruct (before y x) eqn:E.
    + constructor; [now apply IH |].
      apply (Permutation_Forall (x := x :: l)); [symmetry; apply stable_insert_perm |].
      constructor; [now apply R_before | assumption].
    + constructor; [assumption |]. constructor; [now apply Hxy |].
      rewrite Forall_forall in Hxl, Hy |- *. intros z Hz.
      apply Hxl; [assumption |]. apply (R_trans_tie x y z E). now apply Hy.
Qed.
End StableSortFacts.





(** ** Loyalty laggards *)




(** ** Grouping *)

Lemma str_lt_neq (a b : string) : str_lt a b -> a <> b.
Proof.
  intros H E. subst. exact (StrictOrder_Irreflexive (R := str_lt) b H).
Qed.

Lemma str_lt_trans (a b c : string) : str_lt a b -> str_lt b c -> str_lt a c.
Proof. apply (StrictOrder_Transitive (R := str_lt)). Qed.

Lemma series_get_absent {V : Type} (s : Series V) (k : string) (d : V) :
  ~ In k (map fst s) -> series_get s k d = d.
Proof.
  induction s as [| [k' v] s IH]; cbn [series_get map fst In]; [reflexivity |].
  intros H. destruct (String.eqb_spec k' k) as [E | E]; [tauto |].
  apply IH. tauto.
Qed.

Lemma sorted_keys_NoDup (keys : list string) :
  StronglySorted str_lt keys -> NoDup keys.
Proof.
  induction 1 as [| k keys Hs IH Hk]; constructor; [| assumption].
  intros Hin. rewrite Forall_forall in Hk. exact (str_lt_neq _ _ (Hk k Hin) eq_refl).
Qed.

Lemma group_insert_keys (k : string) (r : Row) (gs : list (string * list Row))
  (k' : string) :
  In k' (map fst (group_insert k r gs)) <-> k' = k \/ In k' (map fst gs).
Proof.
  induction gs as [| [k1 g] gs IH]; cbn [group_insert map fst In].
  - intuition congruence.
  - destruct (String_as_OT.compare_spec k k1) as [E | E | E]; cbn [map fst In].
    + unfold String_as_OT.eq in E. subst. intuition congruence.
    + intuition congruence.
    + rewrite IH. intuition congruence.
Qed.

Lemma group_insert_sorted (k : string) (r : Row) (gs : list (string * list Row)) :
  StronglySorted str_lt (map fst gs) ->
  StronglySorted str_lt (map fst (group_insert k r gs)).
Proof.
  induction gs as [| [k1 g] gs IH]; cbn [group_insert map fst]; intros Hs.
  - constructor; constructor.
  - inversion Hs as [| k1' l' Hs' Hk1]. subst.
    destruct (String_as_OT.compare_spec k k1) as [E | E | E]; cbn [map fst].
    + unfold String_as_OT.eq in E. subst. now constructor.
    + constructor; [assumption |]. constructor; [assumption |].
      rewrite Forall_forall in Hk1 |- *. intros z Hz.
      exact (str_lt_trans _ _ _ E (Hk1 z Hz)).
    + constructor; [now apply IH |].
      rewrite Forall_forall in Hk1 |- *. intros z Hz.
      apply group_insert_keys in Hz. destruct Hz as [-> | Hz]; [assumption | now apply Hk1].
Qed.

Lemma group_insert_get (k : string) (r : Row) (gs : list (string * list Row))
  (k' : string) :
  StronglySorted str_lt (map fst gs) ->
  series_get (group_insert k r gs) k' []
  = if String.eqb k k' then r :: series_get gs k [] else series_get gs k' [].
Proof.
  induction gs as [| [k1 g] gs IH]; cbn [group_insert map fst]; intros Hs.
  - cbn [series_get]. now destruct (String.eqb k k').
  - inversion Hs as [| k1' l' Hs' Hk1]. subst.
    destruct (String_as_OT.compare_spec k k1) as [E | E | E]; cbn [series_get].
    + unfold String_as_OT.eq in E. subst.
      rewrite String.eqb_refl. now destruct (String.eqb k1 k').
    + destruct (String.eqb_spec k k') as [E' | E']; [| reflexivity].
      destruct (String.eqb_spec k1 k) as [E1 | E1];
        [subst; elim (str_lt_neq _ _ E eq_refl) |].
      rewrite series_get_absent; [reflexivity |].
      intros Hin. rewrite Forall_forall in Hk1.
      exact (str_lt_neq _ _ (str_lt_trans _ _ _ E (Hk1 k Hin)) eq_refl).
    + destruct (String.eqb_spec k1 k') as [E1 | E1].
      * subst k'. destruct (String.eqb_spec k k1) as [E2 | E2]; [| reflexivity].
        subst. elim (str_lt_neq _ _ E eq_refl).
      * rewrite (IH Hs'). destruct (String.eqb_spec k1 k) as [E2 | E2]; [| reflexivity].
        subst. elim (str_lt_neq _ _ E eq_refl).
Qed.

Lemma groupby_sorted (key : Row -> string) (l : list Row) :
  StronglySorted str_lt (map fst (groupby key l)).
Proof.
  induction l as [| r l IH]; cbn [groupby fold_right]; [constructor |].
  now apply group_insert_sorted.
Qed.

Lemma groupby_keys (key : Row -> string) (l : list Row) (k : string) :
  In k (map fst (groupby key l)) <-> In k (map key l).
Proof.
  induction l as [| r l IH]; cbn [groupby fold_right map In]; [tauto |].
  fold (groupby key l). rewrite group_insert_keys, IH. intuition congruence.
Qed.

Lemma groupby_get (key : Row -> string) (l : list Row) (k : string) :
  series_get (groupby key l) k [] = filter (fun r => String.eqb (key r) k) l.
Proof.
  induction l as [| r l IH]; cbn [groupby fold_right filter]; [reflexivity |].
  fold (groupby key l). rewrite group_insert_get by apply groupby_sorted.
  destruct (String.eqb_spec (key r) k) as [E | E]; [| assumption].
  rewrite <- IH. now subst.
Qed.

(** A Series computed group by group is a function of the group keys. *)
Lemma groups_by_key {V : Type} (h : list Row -> V) (gs : list (string * list Row)) :
  StronglySorted str_lt (map fst gs) ->
  map (fun kg => (fst kg, h (snd kg))) gs
  = map (fun k => (k, h (series_get gs k []))) (map fst gs).
Proof.
  induction gs as [| [k g] gs IH]; cbn [map fst snd]; intros Hs; [reflexivity |].
  inversion Hs as [| k' l' Hs' Hk]. subst.
  cbn [series_get]. rewrite String.eqb_refl. f_equal.
  rewrite (IH Hs'). apply map_ext_in. intros k' Hk'.
  rewrite Forall_forall in Hk.
  destruct (String.eqb_spec k k') as [E | E]; [| reflexivity].
  subst. elim (str_lt_neq _ _ (Hk k' Hk') eq_refl).
Qed.


Lemma group_size_items (l : list Row) :
  group_size (groupby item_purchased l)
  = map (fun k => (k, item_count k l)) (item_keys l).
Proof.
  unfold group_size. rewrite (groups_by_key (fun g => length g))
    by apply groupby_sorted.
  apply map_ext. intros k. unfold item_count. now rewrite groupby_get.
Qed.

(** The group stored under a key holds the rows of that key, so a Series
    computed group by group is a function of the rows of each key. *)
Lemma grouped_by_key {V : Type} (h : list Row -> V) (key : Row -> string)
  (l : list Row) :
  map (fun kg => (fst kg, h (snd kg))) (groupby key l)
  = map (fun k => (k, h (rows_of key k l))) (map fst (groupby key l)).
Proof.
  rewrite (groups_by_key h) by apply groupby_sorted.
  apply map_ext. intros k. unfold rows_of. now rewrite groupby_get.
Qed.

(** ** The recommended items *)




(** ** The empty outcome *)

Lemma filter_none {A : Type} (p : A -> bool) (l : list A) :
  (forall x, In x l -> p x = false) -> filter p l = [].
Proof.
  induction l as [| x l IH]; [reflexivity |]. intros H. cbn [filter].
  rewrite (H x (or_introl eq_refl)). apply IH. intros y Hy. apply H. now right.
Qed.

Lemma empty_no_rows (cols : list string) : empty (mkDF cols []) = true.
Proof. unfold empty. cbn [columns rows]. now destruct cols. Qed.

(** C7.  When no row satisfies the selection, [analyze_data] returns without
    computing the summary (whatever the other columns are): it shows the "No
    records found" warning and stores an empty filtered set; a later request
    for a detailed report then gets the "No Data" warning from
    [show_details_popup], and the "no data" text from
    [update_details_display] if the popup exists; all of these are returned
    values, none is an exception. *)
Theorem no_matching_records_short_circuit (df : DataFrame) (spec : FilterSpec)
  (st : Session) :
  has_filter_columns df ->
  In (age_var spec) age_ranges ->
  (forall r, In r (rows df) -> ~ matches spec r) ->
  let st' := mkSession pd_DataFrame (current_detail_option st) (details_popup st) in
  analyze_data lib df spec st
  = Ok (st', Warning "No Data" "No records found for selected filters.") /\
  show_details_popup lib st'
  = Ok (st', Warning "No Data"
          "Please apply filters and run the analysis before viewing detailed reports.") /\
  (forall option_,
      update_details_display lib option_ st'
      = Ok (mkSession pd_DataFrame option_ (details_popup st),
            match details_popup st with
            | Some _ => Some (Message no_data_text)
            | None => None
            end)).
Proof.
  intros Hcols Hv Hnone. cbn zeta.
  assert (Hrows : filter (passes spec) (rows df) = []).
  { apply filter_none. intros r Hr. destruct (passes spec r) eqn:E; [| reflexivity].
    apply passes_matches in E; [| assumption]. elim (Hnone r Hr E). }
  split.
  { unfold analyze_data. rewrite apply_filters_passes by assumption.
    cbn [bind]. rewrite Hrows, empty_no_rows. reflexivity. }
  split; [reflexivity |].
  intros option_. unfold update_details_display. cbn [details_popup last_filtered_df].
  now destruct (details_popup st).
Qed.

(** ** Missing columns *)

(** C8.  The claim does not hold of the code: on a data set without the
    ['Previous Purchases'] column the Loyalty Laggards report raises
    [KeyError], and on one without ['Purchase Amount (USD)'] the summary does;
    the sibling reports guard their columns and answer with a text
    instead. *)
Theorem missing_column_raises :
  update_details_display lib "Least Purchases"
    (mkSession (loaded (header_without "Previous Purchases") sample_csv)
               "Location" (Some true))
  = Raise (KeyError "Previous Purchases") /\
  analyze_data lib (loaded (header_without "Purchase Amount (USD)") sample_csv)
    unconstrained initial_session
  = Raise (KeyError "Purchase Amount (USD)") /\
  option_map snd
    (match update_details_display lib "Color"
             (mkSession (loaded (header_without "Color") sample_csv)
                        "Location" (Some true)) with
     | Ok sr => Some sr
     | Raise _ => None
     end)
  = Some (Some (Message "No data available for this report.")) /\
  option_map snd
    (match update_details_display lib "Location"
             (mkSession (loaded (header_without "Location") sample_csv)
                        "Location" (Some true)) with
     | Ok sr => Some sr
     | Raise _ => None
     end)
  = Some (Some (Message "Required columns (Purchase Amount or Location) are missing.")).
Proof. repeat split; vm_compute; reflexivity. Qed.

(** ** With every expected column present nothing raises *)

Lemma group_insert_nonempty (k : string) (r : Row) (gs : list (string * list Row)) :
  group_insert k r gs <> [].
Proof.
  destruct gs as [| [k' g] gs]; cbn [group_insert]; [discriminate |].
  destruct (String_as_OT.compare k k'); discriminate.
Qed.

Lemma count_insert_nonempty (k : string) (cs : Series nat) : count_insert k cs <> [].
Proof.
  destruct cs as [| [k' n] cs]; cbn [count_insert]; [discriminate |].
  destruct (String.eqb k k'); discriminate.
Qed.

Lemma fold_count_insert_nonempty (xs : list string) (acc : Series nat) :
  xs <> [] \/ acc <> [] ->
  fold_left (fun cs k => count_insert k cs) xs acc <> [].
Proof.
  revert acc. induction xs as [| x xs IH]; intros acc H; cbn [fold_left].
  - destruct H as [H | H]; [now elim H | assumption].
  - apply IH. right. apply count_insert_nonempty.
Qed.

Lemma stable_sort_nonempty {A : Type} (before : A -> A -> bool) (l : list A) :
  l <> [] -> stable_sort before l <> [].
Proof.
  intros H E. apply (f_equal (@length A)) in E. rewrite stable_sort_length in E.
  destruct l; [now elim H | discriminate E].
Qed.

Lemma empty_false_rows (df : DataFrame) : empty df = false -> rows df <> [].
Proof.
  unfold empty. destruct (columns df), (rows df); discriminate.
Qed.

Lemma sort_counts_nonempty (s : Series nat) : s <> [] -> sort_counts lib s <> [].
Proof.
  intros H E. destruct lib_lawful as (Hperm & _).
  specialize (Hperm s). rewrite E in Hperm.
  apply Permutation_nil in Hperm. contradiction.
Qed.

Lemma sort_totals_nonempty (s : Series Q) : s <> [] -> sort_totals lib s <> [].
Proof.
  intros H E. destruct lib_lawful as (_ & _ & Hperm & _).
  specialize (Hperm s). rewrite E in Hperm.
  apply Permutation_nil in Hperm. contradiction.
Qed.

Lemma core_in_header : incl core_header csv_header.
Proof. intros c Hc. simpl in Hc |- *. intuition. Qed.

Lemma full_schema_core (df : DataFrame) : full_schema df -> core_schema df.
Proof. intros H c Hc. apply H, core_in_header, Hc. Qed.

Lemma detail_report_total (filtered_df : DataFrame) (option_ : string) :
  core_schema filtered_df ->
  raises (detail_report lib filtered_df option_) = false.
Proof.
  intros Hcol. unfold detail_report.
  destruct (empty filtered_df) eqn:He; [reflexivity |].
  apply empty_false_rows in He.
  rewrite (Hcol "Purchase Amount (USD)"), (Hcol "Location"), (Hcol "Color")
    by (simpl; tauto).
  unfold column.
  rewrite (Hcol "Previous Purchases"), (Hcol "Color") by (simpl; tauto).
  cbn [andb bind].
  destruct (String.eqb option_ "Location").
  - destruct (sort_totals lib
                (group_sum lib purchase_amount (groupby location (rows filtered_df))))
      as [| [k v] s] eqn:E; [| reflexivity].
    exfalso. revert E. apply sort_totals_nonempty.
    unfold group_sum. destruct (rows filtered_df) as [| r l]; [now elim He |].
    cbn [groupby fold_right]. intros E. apply map_eq_nil in E.
    exact (group_insert_nonempty _ _ _ E).
  - destruct (String.eqb option_ "Color"); cbn [andb].
    + destruct (value_counts lib (map color (rows filtered_df))) as [| x s] eqn:E;
        [| reflexivity].
      exfalso. unfold value_counts, first_seen_counts in E. revert E.
      apply sort_counts_nonempty, fold_count_insert_nonempty. left.
      intros E. apply map_eq_nil in E. contradiction.
    + destruct (String.eqb option_ "Least Purchases"); [| reflexivity].
      rewrite getitem_columns_ok; [reflexivity |].
      intros c Hc. apply Hcol. simpl in Hc |- *. intuition.
Qed.

Lemma most_active_age_group_total (filtered_df : DataFrame) :
  has_column filtered_df "Age Group" = true ->
  has_column filtered_df "Age" = true ->
  Forall bucketed (rows filtered_df) ->
  raises (most_active_age_group filtered_df) = false.
Proof.
  intros Hg Ha Hb. unfold most_active_age_group, column. rewrite Hg, Ha.
  cbn [bind]. rewrite nonempty_guard.
  assert (E : map age_group (rows filtered_df)
              = map (fun r => AgeBucket (age r)) (rows filtered_df)).
  { apply map_ext_in. intros r Hr. rewrite Forall_forall in Hb. exact (Hb r Hr). }
  rewrite E, map_map.
  change (fun x => cut (age x) age_bins age_labels) with (fun r => AgeBucket (age r)).
  set (current := map (fun r => AgeBucket (age r)) (rows filtered_df)).
  destruct (dropna current) as [| b l] eqn:Ed; [reflexivity |].
  cbn [length Nat.eqb negb].
  destruct (mode age_labels current) as [| top rest] eqn:Em; [| reflexivity].
  exfalso. revert Em. apply (mode_nonempty age_labels current b).
  - assert (Hin : In b (dropna current)) by (rewrite Ed; now left).
    apply dropna_In, in_map_iff in Hin. destruct Hin as (r & Er & _).
    exact (AgeBucket_label _ _ Er).
  - unfold count_label. rewrite Ed. cbn [filter]. rewrite String.eqb_refl.
    cbn [length]. lia.
Qed.

Lemma summarize_total (filtered_df : DataFrame) :
  core_schema filtered_df ->
  has_column filtered_df "Age Group" = true ->
  Forall bucketed (rows filtered_df) ->
  raises (summarize lib filtered_df) = false.
Proof.
  intros Hfull Hg Hb. unfold summarize, column.
  rewrite (Hfull "Purchase Amount (USD)") by (simpl; tauto). cbn [bind].
  pose proof (most_active_age_group_total filtered_df Hg
                (Hfull "Age" ltac:(simpl; tauto)) Hb) as Hm.
  destruct (most_active_age_group filtered_df); [| discriminate Hm]. cbn [bind].
  unfold recommended_items.
  now destruct (has_column filtered_df "Item Purchased").
Qed.

(** On a data set loaded from a file with every expected column, no selection
    and no report selection makes the pipeline raise. *)
Lemma pipeline_total (csv_columns : list string) (csv_rows : list Row)
  (df : DataFrame) (spec : FilterSpec) (st : Session) :
  incl core_header csv_columns ->
  load csv_columns csv_rows = Ok df ->
  raises (analyze_data lib df spec st) = false /\
  (forall option_ st' shown,
      analyze_data lib df spec st = Ok (st', shown) ->
      raises (update_details_display lib option_ st') = false /\
      raises (show_details_popup lib st') = false).
Proof.
  intros Hincl Hload. apply load_inv in Hload.
  destruct Hload as (_ & Hgroup & Hcols & Hb & _).
  assert (Hfull : core_schema df).
  { intros c Hc. apply has_column_In. apply Hcols, Hincl, Hc. }
  assert (Hfcols : has_filter_columns df)
    by (repeat split; apply Hfull; simpl; tauto).
  set (fdf := mkDF (columns df) (filter (passes spec) (rows df))).
  assert (Hfull' : core_schema fdf) by exact Hfull.
  assert (Hdetail : forall o (s : Session),
             last_filtered_df s = fdf \/ last_filtered_df s = pd_DataFrame ->
             raises (update_details_display lib o s) = false).
  { intros o s Hs. unfold update_details_display.
    cbn [details_popup last_filtered_df].
    destruct (details_popup s); [| reflexivity].
    destruct Hs as [-> | ->]; [| reflexivity].
    pose proof (detail_report_total fdf o Hfull') as H.
    now destruct (detail_report lib fdf o). }
  assert (Hpopup : forall s : Session,
             last_filtered_df s = fdf \/ last_filtered_df s = pd_DataFrame ->
             raises (show_details_popup lib s) = false).
  { intros s Hs. unfold show_details_popup.
    destruct (empty (last_filtered_df s)); [reflexivity |].
    match goal with
    | |- raises (bind ?c _) = false =>
        assert (Hc : raises c = false) by (apply Hdetail; exact Hs);
        destruct c; [reflexivity | discriminate Hc]
    end. }
  assert (Hrun : forall st' shown,
             analyze_data lib df spec st = Ok (st', shown) ->
             last_filtered_df st' = fdf \/ last_filtered_df st' = pd_DataFrame).
  { intros st' shown. unfold analyze_data.
    rewrite apply_filters_passes by assumption. cbn [bind]. fold fdf.
    destruct (empty fdf); [intros H; inversion H; now right |].
    destruct (summarize lib fdf); [| discriminate]. cbn [bind].
    destruct (category_chart lib fdf); [| discriminate]. cbn [bind details_popup].
    destruct (details_popup st) as [[|] |]; try (intros H; inversion H; now left).
    intros H. apply bind_Ok in H. destruct H as ([s1 r1] & Hu & H).
    apply update_details_display_keeps_data in Hu. inversion H. subst. now left. }
  split.
  - unfold analyze_data. rewrite apply_filters_passes by assumption.
    cbn [bind]. fold fdf.
    destruct (empty fdf); [reflexivity |].
    pose proof (summarize_total fdf Hfull' (proj2 (has_column_In fdf _) Hgroup)
                  (Forall_filter _ _ _ Hb)) as Hs.
    destruct (summarize lib fdf); [| discriminate Hs]. cbn [bind].
    unfold category_chart, column.
    rewrite (Hfull' "Category"), (Hfull' "Purchase Amount (USD)") by (simpl; tauto).
    cbn [bind details_popup].
    destruct (details_popup st) as [[|] |]; try reflexivity.
    match goal with
    | |- raises (bind ?c _) = false =>
        assert (Hc : raises c = false) by (apply Hdetail; now left);
        destruct c; [reflexivity | discriminate Hc]
    end.
  - intros o st' shown Hrun'. specialize (Hrun st' shown Hrun').
    split; [now apply Hdetail | now apply Hpopup].
Qed.

(** ** The ranking does not see the order of the rows *)

Lemma sorted_keys_unique (k1 k2 : list string) :
  StronglySorted str_lt k1 -> StronglySorted str_lt k2 ->
  (forall k, In k k1 <-> In k k2) -> k1 = k2.
Proof.
  intros H1. revert k2. induction H1 as [| x k1 Hs1 IH Hx]; intros k2 H2 Hmem.
  - destruct k2 as [| y k2]; [reflexivity |].
    destruct (proj2 (Hmem y) (or_introl eq_refl)).
  - destruct H2 as [| y k2 Hs2 Hy].
    { destruct (proj1 (Hmem x) (or_introl eq_refl)). }
    rewrite Forall_forall in Hx, Hy.
    assert (Exy : x = y).
    { destruct (proj1 (Hmem x) (or_introl eq_refl)) as [E | Hin]; [now symmetry |].
      destruct (proj2 (Hmem y) (or_introl eq_refl)) as [E | Hin']; [assumption |].
      elim (str_lt_neq x x); [| reflexivity].
      exact (str_lt_trans _ _ _ (Hx y Hin') (Hy x Hin)). }
    subst y. f_equal. apply IH; [assumption |].
    intros k. split; intros Hk.
    + destruct (proj1 (Hmem k) (or_intror Hk)) as [E | Hin]; [| assumption].
      subst k. elim (str_lt_neq _ _ (Hx x Hk) eq_refl).
    + destruct (proj2 (Hmem k) (or_intror Hk)) as [E | Hin]; [| assumption].
      subst k. elim (str_lt_neq _ _ (Hy x Hk) eq_refl).
Qed.

Lemma filter_length_perm {A : Type} (p : A -> bool) (l l' : list A) :
  Permutation l l' -> length (filter p l) = length (filter p l').
Proof.
  induction 1 as [| x l l' _ IH | x y l | l l' l'' _ IH1 _ IH2]; cbn [filter].
  - reflexivity.
  - destruct (p x); cbn [length]; now rewrite IH.
  - now destruct (p x), (p y).
  - now rewrite IH1.
Qed.

(** X18.  The items and counts of the recommendation are the same for every
    order of the rows of the filtered set: no order of first occurrence can
    decide a tie. *)
Lemma recommended_items_order_blind (cols : list string) (l l' : list Row)
  (a b : list (string * nat * option Q)) :
  Permutation l l' ->
  recommended_items lib (mkDF cols l) = Ok (Some a) ->
  recommended_items lib (mkDF cols l') = Ok (Some b) ->
  map fst a = map fst b.
Proof.
  intros Hp. unfold recommended_items.
  change (has_column (mkDF cols l')) with (has_column (mkDF cols l)).
  destruct (has_column (mkDF cols l) "Item Purchased"); [| discriminate].
  cbn [rows]. intros Ha Hb. inversion Ha. inversion Hb. clear Ha Hb.
  rewrite !map_map. cbn [fst].
  assert (Hkeys : item_keys l = item_keys l').
  { apply sorted_keys_unique; try apply groupby_sorted.
    intros k. unfold item_keys. rewrite !groupby_keys.
    split; apply Permutation_in; [| symmetry]; now apply Permutation_map. }
  rewrite !group_size_items, Hkeys.
  replace (map (fun k => (k, item_count k l)) (item_keys l'))
    with (map (fun k => (k, item_count k l')) (item_keys l')); [reflexivity |].
  apply map_ext. intros k. f_equal. symmetry. now apply filter_length_perm.
Qed.

(** ** A summary is displayed as soon as one row satisfies the selection *)

Lemma summary_shown (csv_columns : list string) (csv_rows : list Row)
  (df : DataFrame) (spec : FilterSpec) (st : Session) :
  incl core_header csv_columns ->
  load csv_columns csv_rows = Ok df ->
  In (age_var spec) age_ranges ->
  (exists r, In r (rows df) /\ matches spec r) ->
  exists s, shown_summary (analyze_data lib df spec st) = Some s.
Proof.
  intros Hincl Hload Hv (r & Hr & Hm).
  destruct (pipeline_total _ _ _ spec st Hincl Hload) as [Htotal _].
  apply load_inv in Hload. destruct Hload as (Hage & _ & Hcols & _).
  assert (Hfcols : has_filter_columns df).
  { repeat split; apply has_column_In, Hcols, Hincl; simpl; tauto. }
  revert Htotal. unfold analyze_data.
  rewrite apply_filters_passes by assumption. cbn [bind].
  set (fdf := mkDF (columns df) (filter (passes spec) (rows df))).
  assert (He : empty fdf = false).
  { unfold empty, fdf. cbn [columns rows].
    destruct (columns df) as [| c cols]; [destruct Hage |].
    assert (Hin : In r (filter (passes spec) (rows df))).
    { apply filter_In. split; [assumption | now apply passes_matches]. }
    destruct (filter (passes spec) (rows df)); [destruct Hin | reflexivity]. }
  rewrite He.
  destruct (summarize lib fdf) as [s | e]; [| discriminate]. cbn [bind].
  destruct (category_chart lib fdf) as [c | e]; [| discriminate]. cbn [bind details_popup].
  intros Htotal. exists s.
  destruct (details_popup st) as [[|] |]; try reflexivity.
  destruct (update_details_display lib _ _) as [[st1 r1] | e]; [reflexivity | discriminate Htotal].
Qed.

(** * Further properties of the code *)

(** ** The age-range selections *)

Lemma kept_by_iff (df : DataFrame) (age_range : string) (r : Row) :
  has_column df "Age" = true ->
  In age_range (tl age_ranges) ->
  kept_by df age_range r <-> In r (rows df) /\ in_age_range age_range (age r).
Proof.
  intros Hcol Hin. unfold kept_by. rewrite apply_age_filter_mask by assumption.
  split.
  - intros (d & E & Hr). inversion E. subst d. cbn [rows] in Hr.
    apply filter_In in Hr. now rewrite (age_mask_in_age_range _ _ Hin) in Hr.
  - intros [Hr Ha]. eexists. split; [reflexivity |]. cbn [rows].
    apply filter_In. now rewrite (age_mask_in_age_range _ _ Hin).
Qed.

(** X1.  A selection that is none of the five age ranges (["All"] included)
    leaves the data set as it is, whether or not it has an ['Age'] column;
    each of the five ranges raises [KeyError] when the column is missing. *)
Theorem apply_age_filter_other_selection (df : DataFrame) (age_range : string) :
  (~ In age_range (tl age_ranges) -> apply_age_filter df age_range = Ok df) /\
  (In age_range (tl age_ranges) -> has_column df "Age" = false ->
   apply_age_filter df age_range = Raise (KeyError "Age")).
Proof.
  split.
  - intros Hnot. unfold apply_age_filter.
    repeat match goal with
           | |- (if String.eqb age_range ?s then _ else _) = _ =>
               destruct (String.eqb_spec age_range s) as [E | _];
               [elim Hnot; rewrite E; simpl; tauto |]
           end.
    reflexivity.
  - intros Hin Hcol. unfold apply_age_filter, select. rewrite Hcol.
    simpl in Hin.
    destruct Hin as [<- | [<- | [<- | [<- | [<- | []]]]]]; reflexivity.
Qed.

(** X2.  The five age ranges split the rows aged 18 or more: such a row is
    kept by exactly one of them, and a row under 18 is kept by none. *)
Theorem age_ranges_partition (df : DataFrame) (r : Row) :
  has_column df "Age" = true ->
  In r (rows df) ->
  (age r < 18 ->
   forall age_range, In age_range (tl age_ranges) -> ~ kept_by df age_range r) /\
  (18 <= age r ->
   exists age_range,
     In age_range (tl age_ranges) /\ kept_by df age_range r /\
     forall other, In other (tl age_ranges) -> kept_by df other r ->
                   other = age_range).
Proof.
  intros Hcol Hr. split.
  - intros Hlt age_range Hin Hk. apply kept_by_iff in Hk; try assumption.
    destruct Hk as [_ Hk]. unfold in_age_range in Hk.
    destruct Hk as [[_ H] | [[_ H] | [[_ H] | [[_ H] | [_ H]]]]]; lia.
  - intros Hge.
    assert (Hcase : in_age_range "18-25" (age r) \/ in_age_range "26-35" (age r) \/
                    in_age_range "36-45" (age r) \/ in_age_range "46-60" (age r) \/
                    in_age_range "60+" (age r)).
    { unfold in_age_range.
      destruct (Z_le_gt_dec (age r) 25); [left; left; split; [reflexivity | lia] |].
      destruct (Z_le_gt_dec (age r) 35);
        [right; left; right; left; split; [reflexivity | lia] |].
      destruct (Z_le_gt_dec (age r) 45);
        [right; right; left; right; right; left; split; [reflexivity | lia] |].
      destruct (Z_le_gt_dec (age r) 60);
        [right; right; right; left; right; right; right; left;
         split; [reflexivity | lia] |].
      right; right; right; right; right; right; right; right.
      split; [reflexivity | lia]. }
    assert (Huniq : forall a b, in_age_range a (age r) -> in_age_range b (age r) -> b = a).
    { intros a b Ha Hb. unfold in_age_range in Ha, Hb.
      destruct Ha as [[-> Ha] | [[-> Ha] | [[-> Ha] | [[-> Ha] | [-> Ha]]]]];
        destruct Hb as [[-> Hb] | [[-> Hb] | [[-> Hb] | [[-> Hb] | [-> Hb]]]]];
        try reflexivity; lia. }
    assert (Hfinish : forall a, In a (tl age_ranges) -> in_age_range a (age r) ->
              exists age_range,
                In age_range (tl age_ranges) /\ kept_by df age_range r /\
                forall other, In other (tl age_ranges) -> kept_by df other r ->
                              other = age_range).
    { intros a Hin Ha. exists a. split; [assumption |].
      split; [apply kept_by_iff; auto |].
      intros other Ho Hk. apply kept_by_iff in Hk; try assumption.
      apply (Huniq a other Ha (proj2 Hk)). }
    destruct Hcase as [H | [H | [H | [H | H]]]];
      (eapply Hfinish; [| exact H]); simpl; tauto.
Qed.

(** ** Loading *)

(** X3.  Loading a file that has the ['Age'] column keeps every row and every
    field, sets the bucket of each row from its age (none exactly for the
    ages outside [0,100]) and makes ['Age Group'] a column; loading a file
    without the ['Age'] column raises [KeyError]. *)
Theorem load_adds_age_group (csv_columns : list string) (csv_rows : list Row) :
  (In "Age" csv_columns ->
   exists df,
     load csv_columns csv_rows = Ok df /\
     rows df = map (fun r => set_age_group r (AgeBucket (age r))) csv_rows /\
     (forall c, In c (columns df) <-> c = "Age Group" \/ In c csv_columns) /\
     (forall r, In r (rows df) ->
                (age_group r = None <-> age r < 0 \/ 100 < age r))) /\
  (~ In "Age" csv_columns -> load csv_columns csv_rows = Raise (KeyError "Age")).
Proof.
  unfold load, column. split.
  - intros Hage.
    rewrite (proj2 (has_column_In (mkDF csv_columns csv_rows) "Age") Hage).
    cbn [bind]. eexists. split; [reflexivity |]. cbn [rows columns].
    split; [reflexivity |]. split.
    + intros c. destruct (has_column _ "Age Group") eqn:Hg.
      * apply has_column_In in Hg. cbn [columns] in Hg.
        split; [now right | intros [-> | H]; assumption].
      * rewrite in_app_iff. cbn [In]. intuition congruence.
    + intros r Hr. apply in_map_iff in Hr. destruct Hr as (r0 & <- & _).
      cbn [set_age_group age_group age]. rewrite cut_AgeBucket.
      apply AgeBucket_None.
  - intros Hno.
    destruct (has_column (mkDF csv_columns csv_rows) "Age") eqn:E; [| reflexivity].
    apply has_column_In in E. contradiction.
Qed.

(** ** Composing selections *)

(** X4.  On a data set that has the four filter columns, filtering the
    filtered set of one selection by a second selection gives the rows that
    pass both, the same in either order; filtering a filtered set again by
    its own selection changes nothing. *)
Theorem apply_filters_compose (df : DataFrame) (s1 s2 : FilterSpec) :
  has_filter_columns df ->
  exists f1 f2 f12 f21,
    apply_filters df s1 = Ok f1 /\ apply_filters f1 s2 = Ok f12 /\
    apply_filters df s2 = Ok f2 /\ apply_filters f2 s1 = Ok f21 /\
    f12 = f21 /\
    apply_filters f1 s1 = Ok f1 /\
    (forall r, In r (rows f12) <->
               In r (rows f1) /\ In r (rows f2)).
Proof.
  intros Hcols.
  set (f := fun s l => mkDF (columns df) (filter (passes s) l)).
  assert (Hf : forall s l, has_filter_columns (f s l)) by (intros; exact Hcols).
  exists (f s1 (rows df)), (f s2 (rows df)),
         (f s2 (filter (passes s1) (rows df))), (f s1 (filter (passes s2) (rows df))).
  split; [now apply apply_filters_passes |].
  split; [now rewrite (apply_filters_passes _ s2 (Hf s1 (rows df))) |].
  split; [now apply apply_filters_passes |].
  split; [now rewrite (apply_filters_passes _ s1 (Hf s2 (rows df))) |].
  split.
  { unfold f. f_equal. rewrite !filter_filter. apply filter_ext_eq.
    intros r. apply andb_comm. }
  split.
  { rewrite (apply_filters_passes _ s1 (Hf s1 (rows df))). unfold f. cbn [columns rows].
    do 2 f_equal. rewrite filter_filter. apply filter_ext_eq. intros r.
    now destruct (passes s1 r). }
  intros r. unfold f. cbn [rows]. rewrite !filter_In. tauto.
Qed.

(** ** What the callbacks do to the session *)

Lemma analyze_data_inv (df : DataFrame) (spec : FilterSpec) (st st' : Session)
  (shown : Display) :
  analyze_data lib df spec st = Ok (st', shown) ->
  let fdf := mkDF (columns df) (filter (passes spec) (rows df)) in
  apply_filters df spec = Ok fdf /\
  ((empty fdf = true /\
    st' = mkSession pd_DataFrame (current_detail_option st) (details_popup st) /\
    shown = Warning "No Data" "No records found for selected filters.") \/
   (empty fdf = false /\
    st' = mkSession fdf (current_detail_option st) (details_popup st) /\
    exists s chart,
      summarize lib fdf = Ok s /\ category_chart lib fdf = Ok chart /\
      ((details_popup st = Some true /\
        exists r, detail_report lib fdf (current_detail_option st) = Ok r /\
                  shown = Dashboard s chart (Some r)) \/
       (details_popup st <> Some true /\ shown = Dashboard s chart None)))).
Proof.
  unfold analyze_data. intros H.
  apply bind_Ok in H. destruct H as (fdf & Hf & H).
  pose proof (apply_filters_inv _ _ _ Hf) as E. rewrite <- E. cbn zeta.
  split; [assumption |].
  destruct (empty fdf); [left; inversion H; now repeat split |].
  right. split; [reflexivity |].
  apply bind_Ok in H. destruct H as (s & Hs & H).
  apply bind_Ok in H. destruct H as (c & Hc & H).
  cbn [details_popup] in H.
  destruct (details_popup st) as [[|] |] eqn:Hp.
  - unfold update_details_display in H.
    cbn [details_popup last_filtered_df current_detail_option] in H.
    apply bind_Ok in H. destruct H as ([st1 r1] & Hu & H).
    apply bind_Ok in Hu. destruct Hu as (r & Hr & Hu).
    inversion Hu. subst st1 r1. inversion H. subst st' shown. clear H Hu.
    split; [reflexivity |]. exists s, c. repeat split; try assumption.
    left. split; [reflexivity |]. now exists r.
  - inversion H. split; [reflexivity |]. exists s, c. repeat split; try assumption.
    right. split; [discriminate | reflexivity].
  - inversion H. split; [reflexivity |]. exists s, c. repeat split; try assumption.
    right. split; [discriminate | reflexivity].
Qed.

(** X5.  Selecting a report records the option and changes nothing else of
    the session; while there is no popup it displays nothing and cannot
    raise, whatever the stored data; with a popup, the text displayed is the
    report of the stored filtered set for that option. *)
Theorem update_details_display_session (option_ : string) (st : Session) :
  (details_popup st = None ->
   update_details_display lib option_ st
   = Ok (mkSession (last_filtered_df st) option_ None, None)) /\
  (forall st' report,
      update_details_display lib option_ st = Ok (st', report) ->
      current_detail_option st' = option_ /\
      last_filtered_df st' = last_filtered_df st /\
      details_popup st' = details_popup st /\
      match report with
      | None => details_popup st = None
      | Some r => details_popup st <> None /\
                  detail_report lib (last_filtered_df st) option_ = Ok r
      end).
Proof.
  unfold update_details_display. cbn [details_popup last_filtered_df]. split.
  - intros ->. reflexivity.
  - intros st' report. destruct (details_popup st) as [b |] eqn:Hp.
    + destruct (detail_report lib (last_filtered_df st) option_) as [r | e] eqn:Hr;
        cbn [bind]; intros H; inversion H. cbn.
      repeat split; try assumption. discriminate.
    + intros H. inversion H. cbn. now repeat split.
Qed.

(** X6.  [show_details_popup] with no filtered data warns and leaves the
    session as it is (it creates no popup); with filtered data it maps the
    popup, keeps the data and the selected option, and displays the report of
    that option. *)
Theorem show_details_popup_session (st : Session) :
  (empty (last_filtered_df st) = true ->
   show_details_popup lib st
   = Ok (st, Warning "No Data"
           "Please apply filters and run the analysis before viewing detailed reports.")) /\
  (empty (last_filtered_df st) = false ->
   forall st' shown,
     show_details_popup lib st = Ok (st', shown) ->
     st' = mkSession (last_filtered_df st) (current_detail_option st) (Some true) /\
     exists r,
       detail_report lib (last_filtered_df st) (current_detail_option st) = Ok r /\
       shown = Details (Some r)).
Proof.
  unfold show_details_popup. split.
  - intros ->. reflexivity.
  - intros -> st' shown. unfold update_details_display.
    cbn [details_popup last_filtered_df current_detail_option].
    destruct (detail_report lib (last_filtered_df st) (current_detail_option st))
      as [r | e]; cbn [bind fst snd]; intros H; inversion H.
    split; [reflexivity |]. now exists r.
Qed.

(** X7.  A run of [analyze_data] never changes the selected report option or
    the popup; it stores either no data (when it warns) or the non-empty
    filtered set of its selection (when it shows the dashboard); and its
    outcome does not depend on the filtered set stored before.  (It warns
    when no row passes the selection, or when the data set has no column.) *)
Theorem analyze_data_session (df : DataFrame) (spec : FilterSpec) (st : Session) :
  (forall st' shown,
      analyze_data lib df spec st = Ok (st', shown) ->
      current_detail_option st' = current_detail_option st /\
      details_popup st' = details_popup st /\
      ((last_filtered_df st' = pd_DataFrame /\
        (filter (passes spec) (rows df) = [] \/ columns df = []) /\
        shown = Warning "No Data" "No records found for selected filters.") \/
       (last_filtered_df st' = mkDF (columns df) (filter (passes spec) (rows df)) /\
        filter (passes spec) (rows df) <> [] /\
        exists s chart details, shown = Dashboard s chart details))) /\
  (forall previous,
      analyze_data lib df spec
        (mkSession previous (current_detail_option st) (details_popup st))
      = analyze_data lib df spec st).
Proof.
  split.
  - intros st' shown H. apply analyze_data_inv in H. cbn zeta in H.
    destruct H as (Hf & [(He & -> & ->) | (He & -> & s & c & Hs & Hc & Hd)]);
      cbn [current_detail_option details_popup last_filtered_df].
    + repeat split. left. repeat split.
      unfold empty in He. cbn [columns rows] in He.
      destruct (filter (passes spec) (rows df)) as [| r l]; [now left |].
      destruct (columns df) as [| c cols]; [now right | discriminate He].
    + repeat split. right. repeat split.
      * now apply empty_false_rows in He.
      * destruct Hd as [(_ & r & _ & ->) | (_ & ->)]; eauto.
  - intros previous. reflexivity.
Qed.

(** X8.  When [analyze_data] shows the dashboard while the popup is mapped,
    the report it refreshes is the one [update_details_display] gives for the
    selected option right afterwards, on the session it leaves; when the
    popup is not mapped it refreshes nothing. *)
Theorem analyze_data_refreshes_report (df : DataFrame) (spec : FilterSpec)
  (st st' : Session) (s : Summary) (chart : option (Series Q))
  (details : option Report) :
  analyze_data lib df spec st = Ok (st', Dashboard s chart details) ->
  (details_popup st = Some true ->
   update_details_display lib (current_detail_option st') st' = Ok (st', details)) /\
  (details_popup st <> Some true -> details = None).
Proof.
  intros H. apply analyze_data_inv in H. cbn zeta in H.
  destruct H as (_ & [(_ & _ & Hw) | (_ & -> & s0 & c0 & _ & _ & Hd)]);
    [discriminate Hw |].
  destruct Hd as [(Hp & r & Hr & E) | (Hp & E)]; inversion E; subst; split.
  - intros _. unfold update_details_display.
    cbn [details_popup last_filtered_df current_detail_option].
    rewrite Hp, Hr. reflexivity.
  - intros Hn. contradiction.
  - intros Hq. contradiction.
  - reflexivity.
Qed.

(** ** No sequence of actions raises on complete data *)

Lemma detail_report_safe (df : DataFrame) (st : Session) (option_ : string) :
  full_schema df ->
  holds_filtered_set df st ->
  exists r, detail_report lib (last_filtered_df st) option_ = Ok r.
Proof.
  intros Hfull [E | (spec & E & _)]; rewrite E.
  - eexists. reflexivity.
  - assert (H : raises (detail_report lib
                          (mkDF (columns df) (filter (passes spec) (rows df)))
                          option_) = false)
      by (apply detail_report_total, full_schema_core; exact Hfull).
    destruct (detail_report lib _ option_) as [r | e]; [now exists r | discriminate H].
Qed.

Lemma dispatch_safe (csv_columns : list string) (csv_rows : list Row)
  (df : DataFrame) (a : Action) (st : Session) :
  incl csv_header csv_columns ->
  load csv_columns csv_rows = Ok df ->
  holds_filtered_set df st ->
  exists st' shown,
    dispatch lib df a st = Ok (st', shown) /\ holds_filtered_set df st'.
Proof.
  intros Hincl Hload Hst.
  assert (Hfull : full_schema df).
  { apply load_inv in Hload. destruct Hload as (_ & _ & Hcols & _).
    intros c Hc. apply has_column_In, Hcols, Hincl, Hc. }
  destruct a as [spec | | option_]; cbn [dispatch].
  - destruct (pipeline_total _ _ _ spec st (incl_tran core_in_header Hincl) Hload)
      as [Htotal _].
    destruct (analyze_data lib df spec st) as [[st' shown] | e] eqn:E;
      [| discriminate Htotal].
    exists st', shown. split; [reflexivity |].
    apply analyze_data_inv in E. cbn zeta in E.
    destruct E as (_ & [(_ & -> & _) | (He & -> & _)]).
    + now left.
    + right. exists spec. split; [reflexivity |].
      now apply empty_false_rows in He.
  - unfold show_details_popup.
    destruct (empty (last_filtered_df st)); [now exists st, (Warning "No Data"
      "Please apply filters and run the analysis before viewing detailed reports.") |].
    unfold update_details_display.
    cbn [details_popup last_filtered_df current_detail_option].
    destruct (detail_report_safe df st (current_detail_option st) Hfull Hst)
      as (r & ->).
    cbn [bind fst snd]. eexists. eexists. split; [reflexivity |]. exact Hst.
  - unfold update_details_display. cbn [details_popup last_filtered_df].
    destruct (details_popup st).
    + destruct (detail_report_safe df st option_ Hfull Hst) as (r & ->).
      cbn [bind fst snd]. eexists. eexists. split; [reflexivity |]. exact Hst.
    + cbn [bind fst snd]. eexists. eexists. split; [reflexivity |]. exact Hst.
Qed.

(** X9.  On a data set loaded from a file with every expected column, every
    sequence of user actions (analyses, opening the detailed reports,
    selecting a report, any option text) runs to its end without an
    exception, displays one result per action, and leaves as stored data
    either nothing or the non-empty filtered set of some selection. *)
Theorem run_session_safe (csv_columns : list string) (csv_rows : list Row)
  (df : DataFrame) (actions : list Action) (st : Session) :
  incl csv_header csv_columns ->
  load csv_columns csv_rows = Ok df ->
  holds_filtered_set df st ->
  exists st' shown,
    run_session lib df actions st = Ok (st', shown) /\
    holds_filtered_set df st' /\
    length shown = length actions.
Proof.
  intros Hincl Hload. revert st.
  induction actions as [| a actions IH]; intros st Hst; cbn [run_session].
  - exists st, []. now repeat split.
  - destruct (dispatch_safe _ _ _ a st Hincl Hload Hst) as (st1 & d & -> & Hst1).
    cbn [bind fst snd].
    destruct (IH st1 Hst1) as (st' & shown & -> & Hst' & Hlen).
    cbn [bind fst snd]. exists st', (d :: shown).
    repeat split; [assumption |]. cbn [length]. now rewrite Hlen.
Qed.

(** ** The Color Popularity report *)

Lemma count_insert_get (k : string) (cs : Series nat) (k' : string) :
  series_get (count_insert k cs) k' 0%nat
  = ((if String.eqb k k' then 1 else 0) + series_get cs k' 0)%nat.
Proof.
  induction cs as [| [k1 n] cs IH]; cbn [count_insert series_get].
  - destruct (String.eqb k k'); reflexivity.
  - destruct (String.eqb_spec k k1) as [E | E]; cbn [series_get].
    + subst k1. destruct (String.eqb k k'); [reflexivity | reflexivity].
    + rewrite IH. destruct (String.eqb_spec k1 k') as [E1 | E1]; [| reflexivity].
      subst k'. destruct (String.eqb_spec k k1); [contradiction | reflexivity].
Qed.

Lemma count_insert_keys (k : string) (cs : Series nat) (k' : string) :
  In k' (map fst (count_insert k cs)) <-> k' = k \/ In k' (map fst cs).
Proof.
  induction cs as [| [k1 n] cs IH]; cbn [count_insert map fst In].
  - intuition congruence.
  - destruct (String.eqb_spec k k1) as [E | E]; cbn [map fst In].
    + subst. intuition congruence.
    + rewrite IH. intuition congruence.
Qed.

Lemma count_insert_NoDup (k : string) (cs : Series nat) :
  NoDup (map fst cs) -> NoDup (map fst (count_insert k cs)).
Proof.
  induction cs as [| [k1 n] cs IH]; cbn [count_insert map fst]; intros Hnd.
  - constructor; [intros [] | constructor].
  - inversion Hnd as [| x l Hx Hl]. subst.
    destruct (String.eqb_spec k k1) as [E | E]; cbn [map fst].
    + now constructor.
    + constructor; [| now apply IH].
      rewrite count_insert_keys. intros [E1 | Hin]; [congruence | contradiction].
Qed.

Lemma count_insert_sum (k : string) (cs : Series nat) :
  list_sum (map snd (count_insert k cs)) = S (list_sum (map snd cs)).
Proof.
  induction cs as [| [k1 n] cs IH]; cbn [count_insert map snd list_sum fold_right];
    [reflexivity |].
  destruct (String.eqb k k1); cbn [map snd list_sum fold_right].
  - reflexivity.
  - fold (list_sum (map snd (count_insert k cs))). rewrite IH.
    fold (list_sum (map snd cs)). lia.
Qed.

Lemma counts_facts (xs : list string) (acc : Series nat) :
  NoDup (map fst acc) ->
  let counts := fold_left (fun cs k => count_insert k cs) xs acc in
  NoDup (map fst counts) /\
  (forall k, In k (map fst counts) <-> In k xs \/ In k (map fst acc)) /\
  (forall k, series_get counts k 0%nat
             = (length (filter (fun x => String.eqb x k) xs)
                + series_get acc k 0)%nat) /\
  list_sum (map snd counts) = (length xs + list_sum (map snd acc))%nat.
Proof.
  revert acc. induction xs as [| x xs IH]; intros acc Hnd; cbn zeta; cbn [fold_left].
  - repeat split; try assumption; cbn [In]; tauto.
  - destruct (IH (count_insert x acc) (count_insert_NoDup x acc Hnd))
      as (H1 & H2 & H3 & H4).
    split; [assumption |]. split; [| split].
    + intros k. rewrite H2, count_insert_keys. cbn [In]. intuition congruence.
    + intros k. rewrite H3, count_insert_get. cbn [filter].
      destruct (String.eqb x k); cbn [length]; lia.
    + rewrite H4, count_insert_sum. cbn [length]. lia.
Qed.

Lemma series_by_key {V : Type} (s : Series V) (d : V) :
  NoDup (map fst s) ->
  forall k v, In (k, v) s -> series_get s k d = v.
Proof.
  induction s as [| [k1 v1] s IH]; cbn [map fst]; intros Hnd k v; [intros [] |].
  inversion Hnd as [| x l Hx Hl]. subst. cbn [series_get In].
  intros [E | Hin].
  - inversion E. subst. now rewrite String.eqb_refl.
  - destruct (String.eqb_spec k1 k) as [E | E]; [| now apply IH].
    subst. elim Hx. now apply (in_map fst) in Hin.
Qed.

Lemma idxmax_from_first (best : string * nat) (s : Series nat) :
  Forall (fun y => (snd y <= snd best)%nat) s -> idxmax_from best s = fst best.
Proof.
  induction s as [| y s IH]; cbn [idxmax_from]; [reflexivity |].
  intros H. inversion H as [| y' s' Hy Hs]. subst.
  destruct (Nat.ltb_spec (snd best) (snd y)); [lia | now apply IH].
Qed.

Lemma filter_map_length {A B : Type} (f : A -> B) (p : B -> bool) (l : list A) :
  length (filter p (map f l)) = length (filter (fun x => p (f x)) l).
Proof.
  induction l as [| x l IH]; cbn [map filter]; [reflexivity |].
  destruct (p (f x)); cbn [length]; now rewrite IH.
Qed.

(** X12.  On a non-empty filtered set with the color column, the Color
    Popularity report lists every color of the filtered set once, with the
    number of its rows, by descending count; the highlighted color is the
    first one and no color has more rows; the counts add up to the number of
    rows of the filtered set. *)
Theorem color_popularity_report (filtered_df : DataFrame) :
  empty filtered_df = false ->
  has_column filtered_df "Color" = true ->
  exists color_counts top,
    detail_report lib filtered_df "Color" = Ok (ColorPopularity color_counts top) /\
    NoDup (map fst color_counts) /\
    (forall c, In c (map fst color_counts)
               <-> In c (map color (rows filtered_df))) /\
    (forall c n, In (c, n) color_counts ->
                 n = length (rows_of color c (rows filtered_df))) /\
    StronglySorted (fun a b => (snd b <= snd a)%nat) color_counts /\
    (exists n rest,
        color_counts = (top, n) :: rest /\
        forall e, In e color_counts -> (snd e <= n)%nat) /\
    list_sum (map snd color_counts) = length (rows filtered_df).
Proof.
  intros He Hc.
  set (xs := map color (rows filtered_df)).
  set (counts := fold_left (fun cs k => count_insert k cs) xs []).
  destruct (counts_facts xs [] (NoDup_nil _)) as (Hnd & Hkeys & Hget & Hsum).
  cbn zeta in Hnd, Hkeys, Hget, Hsum. fold counts in Hnd, Hkeys, Hget, Hsum.
  assert (Hperm : Permutation (value_counts lib xs) counts)
    by apply (proj1 lib_lawful).
  pose proof (proj1 (proj2 lib_lawful) counts) as Hsorted.
  change (sort_counts lib counts) with (value_counts lib xs) in Hsorted.
  assert (Hkeys' : forall c, In c (map fst (value_counts lib xs)) <-> In c xs).
  { intros c. transitivity (In c (map fst counts)).
    - split; apply Permutation_in; [| symmetry]; now apply Permutation_map.
    - rewrite Hkeys. cbn [map In]. tauto. }
  destruct (value_counts lib xs) as [| [top n] rest] eqn:E.
  { exfalso. apply empty_false_rows in He. unfold xs in Hkeys'.
    destruct (rows filtered_df) as [| r l]; [now elim He |].
    destruct (proj2 (Hkeys' (color r)) (or_introl eq_refl)). }
  assert (Hmax : forall e, In e ((top, n) :: rest) -> (snd e <= n)%nat).
  { intros e [<- | Hin]; [apply Nat.le_refl |].
    inversion Hsorted as [| x l' _ Hx]. subst. rewrite Forall_forall in Hx.
    exact (Hx e Hin). }
  exists ((top, n) :: rest), top.
  split.
  { unfold detail_report, column. rewrite He, Hc.
    change (String.eqb "Color" "Location") with false.
    change (String.eqb "Color" "Color") with true. cbn [andb bind].
    fold xs. rewrite E. cbn [idxmax bind].
    rewrite idxmax_from_first; [reflexivity |].
    apply Forall_forall. intros y Hy. apply Hmax. now right. }
  split.
  { apply (Permutation_NoDup (l := map fst counts)); [| assumption].
    symmetry. now apply Permutation_map. }
  split; [exact Hkeys' |].
  split.
  { intros c m Hin. apply (Permutation_in _ Hperm) in Hin.
    rewrite <- (series_by_key counts 0%nat Hnd c m Hin), Hget.
    cbn [series_get]. rewrite Nat.add_0_r. unfold xs, rows_of.
    apply filter_map_length. }
  split; [assumption |].
  split; [now exists n, rest |].
  rewrite (Permutation_list_sum (Permutation_map snd Hperm)), Hsum.
  unfold xs. cbn [map list_sum fold_right]. rewrite length_map. lia.
Qed.

(** ** When a summary is displayed *)

(** X16.  On a data set loaded from a file with every expected column, a run
    of [analyze_data] displays a summary exactly when some row satisfies the
    selection. *)
Theorem summary_shown_iff_some_row_matches (csv_columns : list string)
  (csv_rows : list Row) (df : DataFrame) (spec : FilterSpec) (st : Session) :
  incl csv_header csv_columns ->
  load csv_columns csv_rows = Ok df ->
  In (age_var spec) age_ranges ->
  (exists s, shown_summary (analyze_data lib df spec st) = Some s) <->
  (exists r, In r (rows df) /\ matches spec r).
Proof.
  intros Hincl Hload Hv. split.
  - intros (s & Hs). apply shown_summary_Some in Hs. cbn zeta in Hs.
    destruct Hs as [He _]. apply empty_false_rows in He. cbn [rows] in He.
    destruct (filter (passes spec) (rows df)) as [| r l] eqn:E; [now elim He |].
    assert (Hin : In r (filter (passes spec) (rows df))) by (rewrite E; now left).
    apply filter_In in Hin. exists r. split; [tauto |].
    now apply passes_matches.
  - apply (summary_shown csv_columns csv_rows); try assumption.
    exact (incl_tran core_in_header Hincl).
Qed.

Lemma load_rows (csv_columns : list string) (csv_rows : list Row) (df : DataFrame) :
  load csv_columns csv_rows = Ok df ->
  rows df = map (fun r => set_age_group r (AgeBucket (age r))) csv_rows.
Proof.
  unfold load, column. destruct (has_column _ "Age"); [| discriminate].
  cbn [bind]. intros H. inversion H. reflexivity.
Qed.

(** ** Series of group totals *)

Lemma sorted_head_is_max (s : Series Q) :
  StronglySorted (fun a b => (snd b <= snd a)%Q) s ->
  forall k total rest, s = (k, total) :: rest ->
                       forall e, In e s -> (snd e <= total)%Q.
Proof.
  intros Hs k total rest -> e [<- | He]; [apply Qle_refl |].
  inversion Hs as [| x l' _ Hx]. subst. rewrite Forall_forall in Hx.
  exact (Hx e He).
Qed.

(** The facts shared by the location report and the chart: a Series of group
    totals sorted by descending total. *)
Lemma sorted_group_totals (key : Row -> string) (f : Row -> Q) (l : list Row) :
  let s := sort_totals lib (group_sum lib f (groupby key l)) in
  NoDup (map fst s) /\
  (forall k, In k (map fst s) <-> In k (map key l)) /\
  (forall k total, In (k, total) s ->
                   total = grouped_sum lib (map f (rows_of key k l))) /\
  StronglySorted (fun a b => (snd b <= snd a)%Q) s.
Proof.
  cbn zeta. destruct lib_lawful as (_ & _ & Hperm & Hsorted).
  specialize (Hperm (group_sum lib f (groupby key l))).
  assert (Hkeys : map fst (group_sum lib f (groupby key l))
                  = map fst (groupby key l)).
  { unfold group_sum. rewrite map_map. reflexivity. }
  split.
  { apply (Permutation_NoDup (l := map fst (group_sum lib f (groupby key l)))).
    - symmetry. now apply Permutation_map.
    - rewrite Hkeys. apply sorted_keys_NoDup, groupby_sorted. }
  split.
  { intros k. rewrite <- groupby_keys, <- Hkeys. split; apply Permutation_in.
    - now apply Permutation_map.
    - symmetry. now apply Permutation_map. }
  split; [| apply Hsorted].
  intros k total Hin. apply (Permutation_in _ Hperm) in Hin.
  unfold group_sum in Hin.
  rewrite (grouped_by_key (fun g => grouped_sum lib (map f g))) in Hin.
  apply in_map_iff in Hin. destruct Hin as (k' & E & _). now inversion E.
Qed.

(** ** The location report and the chart *)

(** X10.  On a non-empty filtered set with the amount and location columns,
    the Location Sales report lists every location of the filtered set once,
    with the group sum of the purchase amounts of its rows, by descending
    total; the highlighted location is the first one and no location has a
    larger total. *)
Theorem location_sales_report (filtered_df : DataFrame) :
  empty filtered_df = false ->
  has_column filtered_df "Purchase Amount (USD)" = true ->
  has_column filtered_df "Location" = true ->
  exists loc_sales top,
    detail_report lib filtered_df "Location" = Ok (LocationSales loc_sales top) /\
    NoDup (map fst loc_sales) /\
    (forall loc, In loc (map fst loc_sales)
                 <-> In loc (map location (rows filtered_df))) /\
    (forall loc total,
        In (loc, total) loc_sales ->
        total = grouped_sum lib
                  (map purchase_amount (rows_of location loc (rows filtered_df)))) /\
    StronglySorted (fun a b => (snd b <= snd a)%Q) loc_sales /\
    (exists total rest,
        loc_sales = (top, total) :: rest /\
        forall e, In e loc_sales -> (snd e <= total)%Q).
Proof.
  intros He Hp Hl.
  pose proof (sorted_group_totals location purchase_amount (rows filtered_df)) as H.
  cbn zeta in H.
  set (loc_sales := sort_totals lib
                      (group_sum lib purchase_amount
                         (groupby location (rows filtered_df)))) in *.
  destruct H as (Hnd & Hkeys & Hval & Hsorted).
  destruct loc_sales as [| [top total] rest] eqn:E.
  { exfalso. apply empty_false_rows in He.
    destruct (rows filtered_df) as [| r l]; [now elim He |].
    destruct (proj2 (Hkeys (location r)) (or_introl eq_refl)). }
  exists ((top, total) :: rest), top. rewrite <- E in *.
  split.
  { unfold detail_report. rewrite He, Hp, Hl.
    change (String.eqb "Location" "Location") with true. cbn [andb].
    fold loc_sales. rewrite E. reflexivity. }
  repeat split; try assumption; try (now apply Hkeys).
  exists total, rest. split; [assumption |].
  now apply (sorted_head_is_max loc_sales Hsorted top total rest).
Qed.

(** X11.  When [analyze_data] shows the dashboard of a data set with a
    category column, the bar chart has one bar for every category of the
    filtered set, of the group sum of the purchase amounts of its rows, by
    descending total. *)
Theorem category_chart_totals (df : DataFrame) (spec : FilterSpec)
  (st st' : Session) (s : Summary) (chart : option (Series Q))
  (details : option Report) :
  analyze_data lib df spec st = Ok (st', Dashboard s chart details) ->
  has_column df "Category" = true ->
  exists bars,
    chart = Some bars /\
    NoDup (map fst bars) /\
    (forall c, In c (map fst bars)
               <-> In c (map category (rows (last_filtered_df st')))) /\
    (forall c total,
        In (c, total) bars ->
        total = grouped_sum lib
                  (map purchase_amount
                     (rows_of category c (rows (last_filtered_df st'))))) /\
    StronglySorted (fun a b => (snd b <= snd a)%Q) bars.
Proof.
  intros H Hyes. apply analyze_data_inv in H. cbn zeta in H.
  destruct H as (_ & [(_ & _ & Hw) | (_ & -> & s0 & c0 & Hs & Hc & Hd)]);
    [discriminate Hw |].
  assert (E : s0 = s /\ c0 = chart).
  { destruct Hd as [(_ & r & _ & E) | (_ & E)]; inversion E; now split. }
  destruct E as [-> ->]. cbn [last_filtered_df rows].
  set (fdf := mkDF (columns df) (filter (passes spec) (rows df))) in *.
  change (has_column df "Category") with (has_column fdf "Category") in Hyes.
  unfold category_chart, column in Hc. rewrite Hyes in Hc.
  destruct (has_column fdf "Purchase Amount (USD)"); [| discriminate Hc].
  cbn [bind] in Hc. inversion Hc. clear Hc. eexists. split; [reflexivity |].
  pose proof (sorted_group_totals category purchase_amount (rows fdf)) as H.
  cbn zeta in H. destruct H as (Hnd & Hkeys & Hval & Hsorted).
  repeat split; try assumption; now apply Hkeys.
Qed.

(** ** Reports that cannot be computed *)

(** X13.  What [update_details_display] writes when a report cannot be
    computed: on an empty filtered set, the "no data" text for every option;
    on a non-empty one, a fixed text for the Location report without the
    amount or the location column, for the Color report without the color
    column, and for an option that is none of the three.  The Loyalty
    Laggards report raises instead: [KeyError] of ['Previous Purchases'] when
    that column is missing, and otherwise the [KeyError] of the column
    selection, whose message lists every missing one of ['Customer ID'] and
    ['Location']. *)
Theorem detail_report_fallbacks (filtered_df : DataFrame) (option_ : string) :
  (empty filtered_df = true ->
   detail_report lib filtered_df option_ = Ok (Message no_data_text)) /\
  (empty filtered_df = false ->
   (option_ = "Location" ->
    has_column filtered_df "Purchase Amount (USD)" = false \/
    has_column filtered_df "Location" = false ->
    detail_report lib filtered_df option_
    = Ok (Message "Required columns (Purchase Amount or Location) are missing.")) /\
   (option_ = "Color" ->
    has_column filtered_df "Color" = false ->
    detail_report lib filtered_df option_
    = Ok (Message "No data available for this report.")) /\
   (option_ <> "Location" -> option_ <> "Color" -> option_ <> "Least Purchases" ->
    detail_report lib filtered_df option_
    = Ok (Message "No data available for this report.")) /\
   (option_ = "Least Purchases" ->
    (has_column filtered_df "Previous Purchases" = false ->
     detail_report lib filtered_df option_ = Raise (KeyError "Previous Purchases")) /\
    (has_column filtered_df "Previous Purchases" = true ->
     has_column filtered_df "Customer ID" = false ->
     has_column filtered_df "Location" = true ->
     detail_report lib filtered_df option_
     = Raise (KeyError "['Customer ID'] not in index")) /\
    (has_column filtered_df "Previous Purchases" = true ->
     has_column filtered_df "Customer ID" = true ->
     has_column filtered_df "Location" = false ->
     detail_report lib filtered_df option_
     = Raise (KeyError "['Location'] not in index")) /\
    (has_column filtered_df "Previous Purchases" = true ->
     has_column filtered_df "Customer ID" = false ->
     has_column filtered_df "Location" = false ->
     detail_report lib filtered_df option_
     = Raise (KeyError "['Customer ID', 'Location'] not in index")))).
Proof.
  unfold detail_report, column. split; [now intros -> |].
  intros ->. split; [| split; [| split]].
  - intros -> Hmiss. change (String.eqb "Location" "Location") with true.
    destruct Hmiss as [-> | ->]; [reflexivity |].
    now rewrite andb_false_r.
  - intros -> ->. reflexivity.
  - intros H1 H2 H3.
    destruct (String.eqb_spec option_ "Location"); [contradiction |].
    destruct (String.eqb_spec option_ "Color"); [contradiction |].
    destruct (String.eqb_spec option_ "Least Purchases"); [contradiction |].
    reflexivity.
  - intros ->. change (String.eqb "Least Purchases" "Location") with false.
    change (String.eqb "Least Purchases" "Color") with false.
    change (String.eqb "Least Purchases" "Least Purchases") with true.
    cbn [andb]. unfold getitem_columns.
    change (has_column (mkDF (columns filtered_df) ?l)) with (has_column filtered_df).
    cbn [filter]. repeat split.
    + intros ->. reflexivity.
    + intros -> -> ->. reflexivity.
    + intros -> -> ->. reflexivity.
    + intros -> -> ->. reflexivity.
Qed.

(** ** The other fields of the summary *)

(** X14.  On a data set loaded from a file that has the columns the pipeline
    needs, with or without the rating and item columns, a summary is
    displayed as soon as one row satisfies the selection.  Its average
    rating is "N/A" exactly when the file has no rating column, it has no
    list of recommended items exactly when the file has no item column, and
    without the rating column the rating of every recommended item is
    "N/A". *)
Theorem summary_without_optional_columns (csv_columns : list string)
  (csv_rows : list Row) (df : DataFrame) (spec : FilterSpec) (st : Session) :
  incl core_header csv_columns ->
  load csv_columns csv_rows = Ok df ->
  In (age_var spec) age_ranges ->
  (exists r, In r (rows df) /\ matches spec r) ->
  exists s,
    shown_summary (analyze_data lib df spec st) = Some s /\
    (has_column df "Review Rating" = false <-> avg_rating s = None) /\
    (has_column df "Item Purchased" = false <-> rec_items s = None) /\
    (has_column df "Review Rating" = false ->
     forall items e, rec_items s = Some items -> In e items -> snd e = None).
Proof.
  intros Hincl Hload Hv Hex.
  destruct (summary_shown _ _ _ spec st Hincl Hload Hv Hex) as (s & Hshown).
  exists s. split; [assumption |].
  apply shown_summary_Some in Hshown. cbn zeta in Hshown.
  destruct Hshown as [_ H].
  set (fdf := mkDF (columns df) (filter (passes spec) (rows df))) in *.
  change (has_column df) with (has_column fdf).
  pose proof (summarize_total_sales fdf s H) as (_ & _ & Hitems & _).
  unfold summarize in H.
  apply bind_Ok in H. destruct H as (amounts & _ & H).
  apply bind_Ok in H. destruct H as (g & _ & H).
  apply bind_Ok in H. destruct H as (items0 & _ & H).
  inversion H. clear H. cbn [avg_rating rec_items] in *. subst s.
  cbn [rec_items] in Hitems. unfold recommended_items in Hitems.
  split; [| split].
  - destruct (has_column fdf "Review Rating"); split; intros; discriminate || reflexivity.
  - destruct (has_column fdf "Item Purchased"); inversion Hitems;
      split; intros; discriminate || reflexivity.
  - intros Hno items e Hsome Hin. subst items0. rewrite Hno in Hitems.
    destruct (has_column fdf "Item Purchased"); [| discriminate Hitems].
    inversion Hitems as [E]. rewrite <- E in Hin. apply in_map_iff in Hin.
    destruct Hin as (ic & <- & _). reflexivity.
Qed.

(** X15.  When a summary is displayed, its record count is the number of rows
    of the data set that satisfy every active predicate of the selection,
    and is at least 1. *)
Theorem summary_record_count (df : DataFrame) (spec : FilterSpec)
  (st : Session) (s : Summary) :
  In (age_var spec) age_ranges ->
  shown_summary (analyze_data lib df spec st) = Some s ->
  exists keep : Row -> bool,
    (forall r, keep r = true <-> matches spec r) /\
    total_records s = length (filter keep (rows df)) /\
    (1 <= total_records s)%nat.
Proof.
  intros Hv H. apply shown_summary_Some in H. cbn zeta in H. destruct H as [He H].
  set (fdf := mkDF (columns df) (filter (passes spec) (rows df))) in *.
  exists (passes spec). split; [intros r; now apply passes_matches |].
  pose proof (summarize_total_sales fdf s H) as (_ & _ & _ & Hn).
  cbn [rows fdf] in Hn. split; [assumption |].
  rewrite Hn. apply empty_false_rows in He. cbn [rows fdf] in He.
  destruct (filter (passes spec) (rows df)); [now elim He | cbn [length]; lia].
Qed.

(** ** The analysis run at start-up *)

(** X17.  The analysis run at start-up (nothing selected, no popup) on a
    non-empty file with every expected column displays the dashboard of the
    whole file: the record count is the number of rows of the file, no
    detailed report is refreshed, and the stored filtered set is the loaded
    data set. *)
Theorem startup_analysis_covers_the_file (csv_columns : list string)
  (csv_rows : list Row) (df : DataFrame) :
  incl csv_header csv_columns ->
  load csv_columns csv_rows = Ok df ->
  csv_rows <> [] ->
  exists st' s chart,
    analyze_data lib df unconstrained initial_session
    = Ok (st', Dashboard s chart None) /\
    last_filtered_df st' = df /\
    total_records s = length csv_rows.
Proof.
  intros Hincl Hload Hne.
  pose proof (load_rows _ _ _ Hload) as Hrows.
  destruct (pipeline_total _ _ _ unconstrained initial_session
              (incl_tran core_in_header Hincl) Hload) as [Htotal _].
  destruct (analyze_data lib df unconstrained initial_session)
    as [[st' shown] | e] eqn:E; [| discriminate Htotal].
  pose proof E as Hinv. apply analyze_data_inv in Hinv. cbn zeta in Hinv.
  assert (Hall : filter (passes unconstrained) (rows df) = rows df).
  { rewrite <- (filter_all (rows df)) at 2. now apply filter_ext_eq. }
  rewrite Hall in Hinv.
  assert (Hdf : mkDF (columns df) (rows df) = df) by now destruct df.
  rewrite Hdf in Hinv.
  destruct Hinv as (_ & [(He & _) | (_ & -> & s & chart & Hs & _ & Hd)]).
  - exfalso. apply load_inv in Hload. destruct Hload as (Hage & _ & _ & _ & Hlen).
    unfold empty in He. destruct (columns df); [destruct Hage |].
    destruct (rows df); [| discriminate He].
    destruct csv_rows; [now elim Hne | discriminate Hlen].
  - destruct Hd as [(Hp & _) | (_ & ->)]; [discriminate Hp |].
    exists (mkSession df (current_detail_option initial_session)
              (details_popup initial_session)), s, chart.
    split; [reflexivity |]. split; [reflexivity |].
    apply summarize_total_sales in Hs. destruct Hs as (_ & _ & _ & ->).
    now rewrite Hrows, length_map.
Qed.

End Properties.

(** ** The reference library *)

(** The reference operations satisfy the laws of the library, so every
    property above holds of them, and can be evaluated. *)
Lemma reference_lawful : lawful reference.
Proof.
  unfold lawful, reference. cbn [sort_counts sort_totals].
  unfold stable_sort_counts, stable_sort_totals.
  split; [intros s; apply stable_sort_perm |].
  split.
  { intros s.
    induction s as [| x s IH]; cbn [stable_sort fold_right]; [constructor |].
    apply stable_insert_sorted.
    - intros y z H. apply Nat.ltb_lt in H. lia.
    - intros a b c H1 H2. apply Nat.ltb_ge in H1. apply Nat.ltb_ge. lia.
    - exact IH.
    - apply Forall_forall. intros y _ H. now apply Nat.ltb_ge in H. }
  split; [intros s; apply stable_sort_perm |].
  intros s.
  induction s as [| x s IH]; cbn [stable_sort fold_right]; [constructor |].
  apply stable_insert_sorted.
  - intros y z H. apply negb_true_iff in H.
    destruct (Qlt_le_dec (snd z) (snd y)) as [Hlt | Hle]; [now apply Qlt_le_weak |].
    apply Qle_bool_iff in Hle. congruence.
  - intros a b c H1 H2. apply negb_false_iff, Qle_bool_iff in H1.
    apply negb_false_iff, Qle_bool_iff. now apply (Qle_trans _ (snd b)).
  - exact IH.
  - apply Forall_forall. intros y _ H. now apply negb_false_iff, Qle_bool_iff in H.
Qed.

(** * The properties on the sample data, with the reference library *)

Lemma apply_age_filter_keeps_range_sample :
  exists kept : list Row,
    apply_age_filter sample_df "46-60" = Ok (mkDF (columns sample_df) kept) /\
    (exists keep : Row -> bool,
        kept = filter keep (rows sample_df) /\
        forall r, keep r = true <-> in_age_range "46-60" (age r)) /\
    (forall r, In r kept <-> In r (rows sample_df) /\ in_age_range "46-60" (age r)) /\
    (forall r, In r (rows sample_df) -> age r = 60 ->
               ("46-60" = "46-60" -> In r kept) /\
               ("46-60" = "60+" -> ~ In r kept)).
Proof.
  apply (apply_age_filter_keeps_range sample_df "46-60").
  - reflexivity.
  - simpl. tauto.
Defined.

Lemma adding_a_constraint_narrows_sample :
  exists f1 f2 : DataFrame,
    apply_filters sample_df (mkSpec "All" "All" "Clothing" "All") = Ok f1 /\
    apply_filters sample_df (mkSpec "Male" "All" "Clothing" "All") = Ok f2 /\
    incl (rows f2) (rows f1) /\
    exists extra : Row -> bool, rows f2 = filter extra (rows f1).
Proof.
  apply (adding_a_constraint_narrows sample_df
           (mkSpec "All" "All" "Clothing" "All")
           (mkSpec "Male" "All" "Clothing" "All")).
  - repeat split.
  - left. cbn. repeat split. discriminate.
Defined.

Lemma top_age_group_most_frequent_sample :
  exists filtered_df,
    apply_filters sample_df female_spec = Ok filtered_df /\
    rows filtered_df <> [] /\
    (forall r, In r (rows filtered_df) ->
               age_group r = AgeBucket (age r) /\
               cut (age r) age_bins age_labels = AgeBucket (age r)) /\
    ((exists r, In r (rows filtered_df) /\ 0 <= age r <= 100) ->
     In (top_age_group female_summary) age_labels /\
     (forall lab, In lab age_labels ->
        (bucket_count lab (rows filtered_df)
         <= bucket_count (top_age_group female_summary) (rows filtered_df))%nat) /\
     exists before after,
       age_labels = (before ++ top_age_group female_summary :: after)%list /\
       forall lab, In lab before ->
         (bucket_count lab (rows filtered_df)
          < bucket_count (top_age_group female_summary) (rows filtered_df))%nat) /\
    ((forall r, In r (rows filtered_df) -> age r < 0 \/ 100 < age r) ->
     top_age_group female_summary = "N/A").
Proof.
  apply (top_age_group_most_frequent reference csv_header sample_csv sample_df female_spec
           initial_session female_summary).
  - vm_compute. reflexivity.
  - vm_compute. reflexivity.
Defined.

Lemma age_over_100_has_no_bucket_elder :
  cut (age elder) age_bins age_labels = None /\
  (forall lab l1 l2,
      count_label lab (map (fun x => cut (age x) age_bins age_labels) (l1 ++ elder :: l2))
      = count_label lab (map (fun x => cut (age x) age_bins age_labels) (l1 ++ l2))) /\
  (forall cols l1 l2,
      bucketed elder ->
      most_active_age_group (mkDF cols (l1 ++ elder :: l2))
      = most_active_age_group (mkDF cols (l1 ++ l2))) /\
  (forall cols l1 l2 lab,
      bucketed elder ->
      most_active_age_group (mkDF cols (l1 ++ elder :: l2)) = Ok lab ->
      age_group elder <> Some lab).
Proof.
  apply (age_over_100_has_no_bucket elder). reflexivity.
Defined.


Lemma no_matching_records_short_circuit_sample :
  let st' := mkSession pd_DataFrame (current_detail_option initial_session)
               (details_popup initial_session) in
  analyze_data reference sample_df young_female_spec initial_session
  = Ok (st', Warning "No Data" "No records found for selected filters.") /\
  show_details_popup reference st'
  = Ok (st', Warning "No Data"
          "Please apply filters and run the analysis before viewing detailed reports.") /\
  (forall option_,
      update_details_display reference option_ st'
      = Ok (mkSession pd_DataFrame option_ (details_popup initial_session),
            match details_popup initial_session with
            | Some _ => Some (Message no_data_text)
            | None => None
            end)).
Proof.
  apply (no_matching_records_short_circuit reference sample_df young_female_spec initial_session).
  - repeat split.
  - simpl. tauto.
  - intros r Hr Hm.
    apply (passes_matches young_female_spec r) in Hm; [| simpl; tauto].
    vm_compute in Hr.
    repeat (destruct Hr as [<- | Hr]; [vm_compute in Hm; discriminate Hm |]).
    exact Hr.
Defined.

Lemma age_ranges_partition_sample :
  (age (nth 2 (rows sample_df) elder) < 18 ->
   forall age_range, In age_range (tl age_ranges) ->
                     ~ kept_by sample_df age_range (nth 2 (rows sample_df) elder)) /\
  (18 <= age (nth 2 (rows sample_df) elder) ->
   exists age_range,
     In age_range (tl age_ranges) /\
     kept_by sample_df age_range (nth 2 (rows sample_df) elder) /\
     forall other, In other (tl age_ranges) ->
                   kept_by sample_df other (nth 2 (rows sample_df) elder) ->
                   other = age_range).
Proof.
  apply (age_ranges_partition sample_df (nth 2 (rows sample_df) elder)).
  - reflexivity.
  - vm_compute. tauto.
Defined.

Lemma apply_filters_compose_sample :
  exists f1 f2 f12 f21,
    apply_filters sample_df female_spec = Ok f1 /\
    apply_filters f1 (mkSpec "All" "46-60" "All" "All") = Ok f12 /\
    apply_filters sample_df (mkSpec "All" "46-60" "All" "All") = Ok f2 /\
    apply_filters f2 female_spec = Ok f21 /\
    f12 = f21 /\
    apply_filters f1 female_spec = Ok f1 /\
    (forall r, In r (rows f12) <-> In r (rows f1) /\ In r (rows f2)).
Proof.
  apply (apply_filters_compose sample_df female_spec
           (mkSpec "All" "46-60" "All" "All")).
  repeat split.
Defined.

Lemma analyze_data_refreshes_report_sample :
  (details_popup open_session = Some true ->
   update_details_display reference (current_detail_option (fst refreshed_run))
     (fst refreshed_run)
   = Ok (fst refreshed_run,
         Some (LoyaltyLaggards
                 [(5, "Texas", 0); (2, "Texas", 2); (3, "Ohio", 2);
                  (1, "Ohio", 7); (4, "Maine", 9)]))) /\
  (details_popup open_session <> Some true ->
   Some (LoyaltyLaggards
           [(5, "Texas", 0); (2, "Texas", 2); (3, "Ohio", 2);
            (1, "Ohio", 7); (4, "Maine", 9)]) = None).
Proof.
  apply (analyze_data_refreshes_report reference sample_df unconstrained open_session
           (fst refreshed_run) whole_summary
           (Some [("Clothing", 90%Q); ("Footwear", 80%Q)])).
  vm_compute. reflexivity.
Defined.

Lemma run_session_safe_sample :
  exists st' shown,
    run_session reference sample_df sample_actions initial_session = Ok (st', shown) /\
    holds_filtered_set sample_df st' /\
    length shown = length sample_actions.
Proof.
  apply (run_session_safe reference reference_lawful csv_header sample_csv sample_df sample_actions
           initial_session).
  - apply incl_refl.
  - vm_compute. reflexivity.
  - left. reflexivity.
Defined.

Lemma color_popularity_report_sample :
  exists color_counts top,
    detail_report reference sample_df "Color" = Ok (ColorPopularity color_counts top) /\
    NoDup (map fst color_counts) /\
    (forall c, In c (map fst color_counts)
               <-> In c (map color (rows sample_df))) /\
    (forall c n, In (c, n) color_counts ->
                 n = length (rows_of color c (rows sample_df))) /\
    StronglySorted (fun a b => (snd b <= snd a)%nat) color_counts /\
    (exists n rest,
        color_counts = (top, n) :: rest /\
        forall e, In e color_counts -> (snd e <= n)%nat) /\
    list_sum (map snd color_counts) = length (rows sample_df).
Proof.
  apply (color_popularity_report reference reference_lawful sample_df); reflexivity.
Defined.

Lemma summary_shown_iff_some_row_matches_sample :
  (exists s, shown_summary (analyze_data reference sample_df female_spec initial_session)
             = Some s) <->
  (exists r, In r (rows sample_df) /\ matches female_spec r).
Proof.
  apply (summary_shown_iff_some_row_matches reference reference_lawful csv_header sample_csv sample_df
           female_spec initial_session).
  - apply incl_refl.
  - vm_compute. reflexivity.
  - simpl. tauto.
Defined.

Lemma recommended_items_order_blind_sample :
  map fst [("Apron", 1%nat, Some (250 # 100)); ("Boots", 1%nat, Some (450 # 100))]
  = map fst [("Apron", 1%nat, Some (250 # 100)); ("Boots", 1%nat, Some (450 # 100))].
Proof.
  apply (recommended_items_order_blind reference (columns sample_df)
           (filter (passes female_spec) (rows sample_df))
           (rev (filter (passes female_spec) (rows sample_df)))).
  - apply Permutation_rev.
  - vm_compute. reflexivity.
  - vm_compute. reflexivity.
Defined.




(** C5, as stated, fails: the filtered set holding only the customer aged
    150 is not empty, and the summary reports ["N/A"], which is none of the
    six buckets. *)
Lemma top_age_group_not_a_bucket :
  (forall lib,
      option_map top_age_group
        (shown_summary
           (analyze_data lib (loaded csv_header elder_csv) unconstrained
              initial_session))
      = Some "N/A") /\
  existsb (String.eqb "N/A") age_labels = false.
Proof.
  split; [intros lib; destruct lib |]; vm_compute; reflexivity.
Qed.

Lemma location_sales_report_sample :
  exists loc_sales top,
    detail_report reference sample_df "Location" = Ok (LocationSales loc_sales top) /\
    NoDup (map fst loc_sales) /\
    (forall loc, In loc (map fst loc_sales)
                 <-> In loc (map location (rows sample_df))) /\
    (forall loc total,
        In (loc, total) loc_sales ->
        total = grouped_sum reference
                  (map purchase_amount (rows_of location loc (rows sample_df)))) /\
    StronglySorted (fun a b => (snd b <= snd a)%Q) loc_sales /\
    (exists total rest,
        loc_sales = (top, total) :: rest /\
        forall e, In e loc_sales -> (snd e <= total)%Q).
Proof.
  apply (location_sales_report reference reference_lawful sample_df);
    reflexivity.
Defined.

Lemma category_chart_totals_sample :
  exists bars,
    Some [("Clothing", 90%Q); ("Footwear", 80%Q)] = Some bars /\
    NoDup (map fst bars) /\
    (forall c, In c (map fst bars)
               <-> In c (map category (rows (last_filtered_df (fst refreshed_run))))) /\
    (forall c total,
        In (c, total) bars ->
        total = grouped_sum reference
                  (map purchase_amount
                     (rows_of category c
                        (rows (last_filtered_df (fst refreshed_run)))))) /\
    StronglySorted (fun a b => (snd b <= snd a)%Q) bars.
Proof.
  apply (category_chart_totals reference reference_lawful sample_df unconstrained
           open_session (fst refreshed_run) whole_summary
           (Some [("Clothing", 90%Q); ("Footwear", 80%Q)])
           (Some (LoyaltyLaggards
                    [(5, "Texas", 0); (2, "Texas", 2); (3, "Ohio", 2);
                     (1, "Ohio", 7); (4, "Maine", 9)]))).
  - vm_compute. reflexivity.
  - reflexivity.
Defined.

Lemma summary_without_optional_columns_sample :
  (exists s,
      shown_summary
        (analyze_data reference (loaded core_header sample_csv) female_spec
           initial_session) = Some s /\
      (has_column (loaded core_header sample_csv) "Review Rating" = false
       <-> avg_rating s = None) /\
      (has_column (loaded core_header sample_csv) "Item Purchased" = false
       <-> rec_items s = None) /\
      (has_column (loaded core_header sample_csv) "Review Rating" = false ->
       forall items e, rec_items s = Some items -> In e items -> snd e = None)) /\
  (exists s,
      shown_summary
        (analyze_data reference (loaded (header_without "Review Rating") sample_csv)
           female_spec initial_session) = Some s /\
      (has_column (loaded (header_without "Review Rating") sample_csv)
         "Review Rating" = false
       <-> avg_rating s = None) /\
      (has_column (loaded (header_without "Review Rating") sample_csv)
         "Item Purchased" = false
       <-> rec_items s = None) /\
      (has_column (loaded (header_without "Review Rating") sample_csv)
         "Review Rating" = false ->
       forall items e, rec_items s = Some items -> In e items -> snd e = None)).
Proof.
  split.
  - apply (summary_without_optional_columns reference reference_lawful
             core_header sample_csv (loaded core_header sample_csv) female_spec
             initial_session).
    + apply incl_refl.
    + vm_compute. reflexivity.
    + simpl. tauto.
    + exists (nth 0 (rows (loaded core_header sample_csv)) elder).
      split; [left; reflexivity | vm_compute; tauto].
  - apply (summary_without_optional_columns reference reference_lawful
             (header_without "Review Rating") sample_csv
             (loaded (header_without "Review Rating") sample_csv) female_spec
             initial_session).
    + intros c Hc. vm_compute in Hc |- *. tauto.
    + vm_compute. reflexivity.
    + simpl. tauto.
    + exists (nth 0 (rows (loaded (header_without "Review Rating") sample_csv)) elder).
      split; [left; reflexivity | vm_compute; tauto].
Defined.

Lemma summary_record_count_sample :
  exists keep : Row -> bool,
    (forall r, keep r = true <-> matches female_spec r) /\
    total_records female_summary = length (filter keep (rows sample_df)) /\
    (1 <= total_records female_summary)%nat.
Proof.
  apply (summary_record_count reference sample_df female_spec initial_session
           female_summary).
  - simpl. tauto.
  - vm_compute. reflexivity.
Defined.

Lemma startup_analysis_covers_the_file_sample :
  exists st' s chart,
    analyze_data reference sample_df unconstrained initial_session
    = Ok (st', Dashboard s chart None) /\
    last_filtered_df st' = sample_df /\
    total_records s = length sample_csv.
Proof.
  apply (startup_analysis_covers_the_file reference reference_lawful csv_header
           sample_csv sample_df).
  - apply incl_refl.
  - vm_compute. reflexivity.
  - discriminate.
Defined.
